(** * Music genre classifier: the prediction pipeline of [backend/app]

    A shallow embedding of [backend/app/main.py] (the two prediction
    endpoints and the demo heuristic), [backend/app/utils.py] (normaliser,
    confidence estimator, feature validator, mock predictions) and the range
    constraints of [backend/app/schemas.py].

    Numbers.  Python floats are modelled as exact rationals ([Q]); the
    equality of two computed numbers is [Qeq] ([==]).  Rounding, [nan] and
    [inf] are outside the model, so a property the code has "up to floating
    tolerance" is an exact equation here.

    Dictionaries.  A [Dict[str, float]] built by a dict display or a dict
    comprehension is an association list in insertion order (the order is
    observable: [top_genres] lists the genres in that order).  The feature
    dictionary of [utils.py] is only read through [.get] and [.items], so it
    is a [gmap string Q].

    Exceptions.  Code that can raise returns a [result]. *)

From Stdlib Require Import QArith Qminmax Lqa Lia.
From stdpp Require Import base option list strings gmap.

Open Scope Q_scope.

(** ** Exceptions *)

Inductive exn : Type :=
  | ZeroDivisionError
  | AttributeError
  | TypeError
  | IndexError
  | ScorerError (msg : string).

Inductive result (A : Type) : Type :=
  | Ok (a : A)
  | Raise (e : exn).
Arguments Ok {A} a.
Arguments Raise {A} e.

Definition is_Ok {A} (r : result A) : Prop :=
  match r with Ok _ => True | Raise _ => False end.

Definition bind {A B} (r : result A) (k : A -> result B) : result B :=
  match r with Ok a => k a | Raise e => Raise e end.

Notation "'let!' x ':=' r 'in' k" := (bind r (fun x => k))
  (at level 10, x name, r at level 100, k at level 200).

(** [try: body except Exception: handler] *)
Definition try_except {A} (body : result A) (handler : exn -> result A) : result A :=
  match body with Ok a => Ok a | Raise e => handler e end.

(** ** Python and numpy built-ins on sequences of floats *)

Definition dict : Type := list (string * Q).

Definition keys (d : dict) : list string := map fst d.
Definition values (d : dict) : list Q := map snd d.

(** [sum(xs)]: left to right, starting from 0. *)
Definition sum (xs : list Q) : Q := fold_left Qplus xs 0.

(** [max(xs)] on a sequence that is not empty: the running maximum is
    replaced only by a strictly larger item.  [max] of an empty sequence
    raises; its one caller tests for emptiness first. *)
Definition max_from (x : Q) (xs : list Q) : Q := fold_left Qmax xs x.

(** [np.mean(xs)].  Every call site passes the ten values of a prediction
    dictionary, so the length is never 0 there. *)
Definition np_mean (xs : list Q) : Q := sum xs / inject_Z (Z.of_nat (length xs)).

(** [a < b] and [a <= b] as tests. *)
Definition Qltb (a b : Q) : bool := negb (Qle_bool b a).

(** ** [main.py]: labels and schemas *)

Definition GENRE_LABELS : list string :=
  ["pop"; "rock"; "hip_hop"; "jazz"; "electronic";
   "classical"; "r_b"; "country"; "metal"; "folk"]%string.

Record TrackData : Type := mkTrackData {
  track_name : string;
  artists : string;
  album_name : string;
  danceability : Q;
  energy : Q;
  loudness : Q;
  speechiness : Q;
  acousticness : Q;
  instrumentalness : Q;
  liveness : Q;
  valence : Q;
  tempo : Q;
  popularity : Q
}.

(** The response without its [timestamp] (a clock reading). *)
Record PredictionResponse : Type := mkPredictionResponse {
  track : string;
  resp_artists : string;
  predictions : dict;
  top_genres : list string;
  confidence : Q;
  model_version : string
}.

Record BatchPredictionResponse : Type := mkBatchPredictionResponse {
  batch_predictions : list PredictionResponse;
  total_tracks : nat;
  average_confidence : Q
}.

(** [schemas.py], [TrackData]: the [ge]/[le] bounds of the ten feature fields. *)
Definition in_range (lo hi x : Q) : Prop := lo <= x /\ x <= hi.

Record schema_valid (t : TrackData) : Prop := mk_schema_valid {
  danceability_range : in_range 0.0 1.0 (danceability t);
  energy_range : in_range 0.0 1.0 (energy t);
  loudness_range : in_range (-60.0) 0.0 (loudness t);
  speechiness_range : in_range 0.0 1.0 (speechiness t);
  acousticness_range : in_range 0.0 1.0 (acousticness t);
  instrumentalness_range : in_range 0.0 1.0 (instrumentalness t);
  liveness_range : in_range 0.0 1.0 (liveness t);
  valence_range : in_range 0.0 1.0 (valence t);
  tempo_range : in_range 60.0 200.0 (tempo t);
  popularity_range : in_range 0.0 100.0 (popularity t)
}.

(** ** [main.py]: the demo heuristic *)

(** The dict display [base_probs] of [demo_predict]. *)
Definition base_probs (track_data : TrackData) : dict :=
  [ ("pop", Qmin 0.7 (danceability track_data * 0.8 + popularity track_data * 0.002));
    ("rock", Qmin 0.6 (energy track_data * 0.7 + (1 - danceability track_data) * 0.3));
    ("hip_hop", Qmin 0.5 (speechiness track_data * 5 + energy track_data * 0.3));
    ("jazz", Qmin 0.4 (acousticness track_data * 0.6 + (1 - energy track_data) * 0.2));
    ("electronic", Qmin 0.8 (energy track_data * 0.7 + danceability track_data * 0.5));
    ("classical", Qmin 0.3 (instrumentalness track_data * 0.8 + acousticness track_data * 0.4));
    ("r_b", Qmin 0.5 (danceability track_data * 0.6 + valence track_data * 0.3));
    ("country", Qmin 0.4 (acousticness track_data * 0.5 + valence track_data * 0.3));
    ("metal", Qmin 0.3 (energy track_data * 0.8 + (1 - valence track_data) * 0.2));
    ("folk", Qmin 0.3 (acousticness track_data * 0.7 + (1 - energy track_data) * 0.2)) ]%string.

(** [[genre for genre, prob in predictions.items() if prob > 0.5]] *)
Definition select_top_genres (predictions : dict) : list string :=
  map fst (List.filter (fun gp => Qltb 0.5 (snd gp)) predictions).

(** [{genre: prob / total * 0.8 for genre, prob in base_probs.items()}];
    the float division raises when [total] is zero. *)
Definition scale_by_total (total : Q) (base : dict) : result dict :=
  if Qeq_bool total 0 then Raise ZeroDivisionError
  else Ok (map (fun gp => (fst gp, snd gp / total * 0.8)) base).

Definition demo_predict (track_data : TrackData) : result PredictionResponse :=
  let base := base_probs track_data in
  let total := sum (values base) in
  let! predictions := scale_by_total total base in
  let top_genres := select_top_genres predictions in
  let confidence := np_mean (values predictions) in
  Ok {| track := track_name track_data;
        resp_artists := artists track_data;
        predictions := predictions;
        top_genres := top_genres;
        confidence := confidence;
        model_version := "DEMO-MODE" |}.

(** ** [main.py]: the trained path *)

(** What [MODEL.predict_proba(features_array)] can hand back for the one
    sample of a request, by shape.  Each case has one reading under Python
    and numpy indexing:
    - [NoLen]: an object without [__len__] ([None], a bare scalar);
    - [Array1 xs]: a 1-D [ndarray] of floats;
    - [Array2 rows]: a 2-D [ndarray], one row per sample (what a multi-class
      scikit-learn classifier returns: shape (1, n_classes));
    - [ListOfArrays1 ps]: a list of 1-D [ndarray]s, one per class;
    - [ListOfRowArrays ps]: a list of 2-D [ndarray]s of shape (1, k), one
      per class (what a multi-output scikit-learn classifier returns for one
      sample; [ps] holds the single row of each);
    - [ListOfLists rows]: a list of lists of floats;
    - [ListOfFloats xs]: a list of floats. *)
Inductive proba : Type :=
  | NoLen
  | Array1 (xs : list Q)
  | Array2 (rows : list (list Q))
  | ListOfArrays1 (ps : list (list Q))
  | ListOfRowArrays (ps : list (list Q))
  | ListOfLists (rows : list (list Q))
  | ListOfFloats (xs : list Q).

(** The module-level [MODEL]: initialised to a path string, replaced by the
    unpickled classifier at startup when the file exists.  Calling
    [predict_proba] on the string raises [AttributeError]. *)
Inductive model : Type :=
  | ModelNone
  | ModelPath (path : string)
  | ModelLoaded (predict_proba : list (list Q) -> result proba).

Definition MODEL_initial : model := ModelPath "backend/models/svm_model.pkl".

Definition call_predict_proba (MODEL : model) (features_array : list (list Q)) : result proba :=
  match MODEL with
  | ModelNone => Raise AttributeError
  | ModelPath _ => Raise AttributeError
  | ModelLoaded predict_proba => predict_proba features_array
  end.

(** [hasattr(probabilities, '__len__') and len(probabilities) > 0] *)
Definition has_positive_len (probabilities : proba) : bool :=
  match probabilities with
  | NoLen => false
  | Array1 xs | ListOfFloats xs => negb (Nat.eqb (length xs) 0)
  | Array2 rows | ListOfArrays1 rows | ListOfRowArrays rows | ListOfLists rows =>
      negb (Nat.eqb (length rows) 0)
  end.

(** [prob[1]] on a 1-D array. *)
Definition index1 (prob : list Q) : result Q :=
  match prob !! 1%nat with Some x => Ok x | None => Raise IndexError end.

(** [[f(x) for x in xs]] where [f] can raise. *)
Fixpoint comprehension {A B} (f : A -> result B) (xs : list A) : result (list B) :=
  match xs with
  | [] => Ok []
  | x :: xs' => let! y := f x in let! ys := comprehension f xs' in Ok (y :: ys)
  end.

(** The value bound to [probabilities] after the shape test: a sequence of
    floats, or a bare scalar (the first entry of a flat sequence). *)
Inductive scores : Type :=
  | Seq (xs : list Q)
  | Scalar (x : Q).

(** Lines 169-176.  [rand] is the array [np.random.rand(len(GENRE_LABELS))]
    draws. *)
Definition resolve_shape (rand : list Q) (probabilities : proba) : result scores :=
  if has_positive_len probabilities then
    match probabilities with
    | Array2 rows | ListOfArrays1 rows =>
        (* [probabilities[0]] is an ndarray *)
        let! picked := comprehension index1 rows in Ok (Seq picked)
    | ListOfRowArrays ps =>
        (* [prob[1]] asks for the second row of a one-row array *)
        let! picked := comprehension (fun _ : list Q => Raise (A:=Q) IndexError) ps in
        Ok (Seq picked)
    | ListOfLists rows =>
        match rows with row :: _ => Ok (Seq row) | [] => Raise IndexError end
    | Array1 xs | ListOfFloats xs =>
        match xs with x :: _ => Ok (Scalar x) | [] => Raise IndexError end
    | NoLen => Raise TypeError
    end
  else Ok (Seq rand).

(** Lines 179-184: the loop over [enumerate(GENRE_LABELS)].  [len] of a
    scalar raises [TypeError]. *)
Definition predictions_of_scores (probabilities : scores) : result dict :=
  match probabilities with
  | Scalar _ => Raise TypeError
  | Seq xs =>
      Ok (imap (fun i genre =>
                  (genre, if (i <? length xs)%nat then default 0.0 (xs !! i) else 0.0))
               GENRE_LABELS)
  end.

Definition features_of (track_data : TrackData) : list Q :=
  [ danceability track_data; energy track_data; loudness track_data;
    speechiness track_data; acousticness track_data; instrumentalness track_data;
    liveness track_data; valence track_data; tempo track_data; popularity track_data ].

(** The body of the [try] of [predict_genres]. *)
Definition trained_predict (MODEL : model) (rand : list Q) (track_data : TrackData)
  : result PredictionResponse :=
  let features := features_of track_data in
  let features_array := [features] in
  let! probabilities := call_predict_proba MODEL features_array in
  let! probabilities := resolve_shape rand probabilities in
  let! predictions := predictions_of_scores probabilities in
  let top_genres := select_top_genres predictions in
  let confidence := np_mean (values predictions) in
  Ok {| track := track_name track_data;
        resp_artists := artists track_data;
        predictions := predictions;
        top_genres := top_genres;
        confidence := confidence;
        model_version := "SVM-v2.0" |}.

Definition predict_genres (MODEL : model) (rand : list Q) (track_data : TrackData)
  : result PredictionResponse :=
  match MODEL with
  | ModelNone => demo_predict track_data
  | _ => try_except (trained_predict MODEL rand track_data)
                    (fun _ => demo_predict track_data)
  end.

(** The loop of [predict_genres_batch]; the [i]-th call of [predict_genres]
    sees the [i]-th draw of the random generator. *)
Fixpoint batch_loop (MODEL : model) (rand : nat -> list Q) (tracks : list TrackData)
    (predictions : list PredictionResponse) (total_confidence : Q)
  : result (list PredictionResponse * Q) :=
  match tracks with
  | [] => Ok (predictions, total_confidence)
  | track :: tracks' =>
      let! resp := predict_genres MODEL (rand 0%nat) track in
      batch_loop MODEL (fun i => rand (S i)) tracks'
                 (predictions ++ [resp]) (total_confidence + confidence resp)
  end.

Definition predict_genres_batch (MODEL : model) (rand : nat -> list Q)
    (tracks : list TrackData) : result BatchPredictionResponse :=
  let! acc := batch_loop MODEL rand tracks [] 0.0 in
  let predictions := fst acc in
  let total_confidence := snd acc in
  let avg_confidence :=
    match predictions with
    | [] => 0.0
    | _ => total_confidence / inject_Z (Z.of_nat (length predictions))
    end in
  Ok {| batch_predictions := predictions;
        total_tracks := length predictions;
        average_confidence := avg_confidence |}.

(** ** [utils.py] *)

(** [normalize_predictions].  On a dictionary of floats nothing in the [try]
    raises, so the handler (which returns the argument as well) is not
    modelled. *)
Definition normalize_predictions (predictions : dict) : dict :=
  let total := sum (values predictions) in
  if Qltb 0 total then map (fun gp => (fst gp, snd gp / total)) predictions
  else predictions.

(** [calculate_confidence].  The handler returning 0.5 is out of reach on a
    dictionary of floats. *)
Definition calculate_confidence (predictions : dict) : Q :=
  match values predictions with
  | [] => 0.0
  | v :: vs =>
      let max_prob := max_from v vs in
      if Qltb 0.7 max_prob then Qmin 1.0 (max_prob * 1.1)
      else if Qltb 0.3 max_prob then max_prob
      else max_prob * 0.8
  end.

(** The table [valid_ranges] of [validate_audio_features]. *)
Definition valid_ranges : gmap string (Q * Q) :=
  list_to_map
    [ ("danceability", (0.0, 1.0)); ("energy", (0.0, 1.0));
      ("loudness", (-60.0, 0.0)); ("speechiness", (0.0, 1.0));
      ("acousticness", (0.0, 1.0)); ("instrumentalness", (0.0, 1.0));
      ("liveness", (0.0, 1.0)); ("valence", (0.0, 1.0));
      ("tempo", (60.0, 200.0)); ("popularity", (0.0, 100.0)) ]%string.

(** One turn of the loop of [validate_audio_features]: [false] is the early
    [return False]. *)
Definition feature_ok (item : string * Q) : bool :=
  match valid_ranges !! item.1 with
  | Some (min_val, max_val) => Qle_bool min_val item.2 && Qle_bool item.2 max_val
  | None => true
  end.

(** [validate_audio_features]: the loop returns [False] at the first item
    out of range and [True] when there is none, whatever the order of
    [features.items()]. *)
Definition validate_audio_features (features : gmap string Q) : bool :=
  forallb feature_ok (map_to_list features).

(** [features.get(key, dflt)] *)
Definition get (features : gmap string Q) (key : string) (dflt : Q) : Q :=
  default dflt (features !! key).

(** The dict display [base_probs] of [generate_mock_predictions]. *)
Definition mock_base_probs (features : gmap string Q) : dict :=
  [ ("pop", Qmin 0.7 (get features "danceability" 0.5 * 0.8 + get features "popularity" 50 * 0.002));
    ("rock", Qmin 0.6 (get features "energy" 0.5 * 0.7 + (1 - get features "danceability" 0.5) * 0.3));
    ("hip_hop", Qmin 0.5 (get features "speechiness" 0.05 * 5 + get features "energy" 0.5 * 0.3));
    ("jazz", Qmin 0.4 (get features "acousticness" 0.1 * 0.6 + (1 - get features "energy" 0.5) * 0.2));
    ("electronic", Qmin 0.8 (get features "energy" 0.5 * 0.7 + get features "danceability" 0.5 * 0.5));
    ("classical", Qmin 0.3 (get features "instrumentalness" 0.0 * 0.8 + get features "acousticness" 0.1 * 0.4));
    ("r_b", Qmin 0.5 (get features "danceability" 0.5 * 0.6 + get features "valence" 0.5 * 0.3));
    ("country", Qmin 0.4 (get features "acousticness" 0.1 * 0.5 + get features "valence" 0.5 * 0.3));
    ("metal", Qmin 0.3 (get features "energy" 0.5 * 0.8 + (1 - get features "valence" 0.5) * 0.2));
    ("folk", Qmin 0.3 (get features "acousticness" 0.1 * 0.7 + (1 - get features "energy" 0.5) * 0.2)) ]%string.

(** [generate_mock_predictions].  The handler (0.1 for every genre) is out
    of reach on a dictionary of floats. *)
Definition generate_mock_predictions (features : gmap string Q) : dict :=
  let base_probs := mock_base_probs features in
  let total := sum (values base_probs) in
  if Qltb 0 total then map (fun gp => (fst gp, snd gp / total * 0.8)) base_probs
  else map (fun gp => (fst gp, 0.08)) base_probs.

(** ** The specification's wording, for comparison with the code *)

(** [m] is the maximum of [xs]. *)
Definition is_max (m : Q) (xs : list Q) : Prop :=
  Exists (fun x => x == m) xs /\ Forall (fun x => x <= m) xs.

(** The tiered confidence of the specification, as a relation between the
    probabilities and the confidence. *)
Definition tiered_confidence (probs : list Q) (c : Q) : Prop :=
  match probs with
  | [] => c == 0.0
  | _ => exists m, is_max m probs /\
           ((0.7 < m /\ c == Qmin 1.0 (m * 1.1)) \/
            (0.3 < m /\ m <= 0.7 /\ c == m) \/
            (m <= 0.3 /\ c == m * 0.8))
  end.

(** Two dictionaries with the same keys in the same order and equal numbers. *)
Definition dict_equiv (d1 d2 : dict) : Prop :=
  Forall2 (fun gp1 gp2 => gp1.1 = gp2.1 /\ gp1.2 == gp2.2) d1 d2.

(** The example request of [schemas.py]. *)
Definition example_track : TrackData :=
  {| track_name := "Blinding Lights"; artists := "The Weeknd"; album_name := "After Hours";
     danceability := 0.8; energy := 0.7; loudness := -5.2; speechiness := 0.1;
     acousticness := 0.2; instrumentalness := 0.0; liveness := 0.1; valence := 0.6;
     tempo := 120.0; popularity := 95.0 |}.

(** ** Predicates and inputs of the statements below *)

(** A scorer returning one row of scores as a list of lists. *)
Definition rows_model (row : list Q) : model :=
  ModelLoaded (fun _ => Ok (ListOfLists [row])).

(** A row of ten scores with its peak at 0.9. *)
Definition peaked_row : list Q := [0.9; 0.1; 0.0; 0.0; 0.0; 0.0; 0.0; 0.0; 0.0; 0.0].

(** The track whose fields are what [generate_mock_predictions] reads out of
    a feature dictionary (a device of the proofs: it is not in the code). *)
Definition track_of_features (features : gmap string Q) : TrackData :=
  {| track_name := ""; artists := ""; album_name := "";
     danceability := get features "danceability" 0.5;
     energy := get features "energy" 0.5;
     loudness := get features "loudness" (-10.0);
     speechiness := get features "speechiness" 0.05;
     acousticness := get features "acousticness" 0.1;
     instrumentalness := get features "instrumentalness" 0.0;
     liveness := get features "liveness" 0.1;
     valence := get features "valence" 0.5;
     tempo := get features "tempo" 120.0;
     popularity := get features "popularity" 50 |}.

(** The values of [d] sum to at most [c] and each lies between 0 and [c]. *)
Definition mass_at_most (c : Q) (d : dict) : Prop :=
  sum (values d) <= c /\ Forall (fun p => 0 <= p /\ p <= c) (values d).

(** The features of [example_track] as the dictionary [utils.py] reads. *)
Definition example_features : gmap string Q :=
  list_to_map
    [ ("danceability", 0.8); ("energy", 0.7); ("loudness", -5.2); ("speechiness", 0.1);
      ("acousticness", 0.2); ("instrumentalness", 0.0); ("liveness", 0.1);
      ("valence", 0.6); ("tempo", 120.0); ("popularity", 95.0) ]%string.

(** A request [main.py] accepts (its [TrackData] declares no bounds): every
    feature the heuristic reads is 0, except the popularity. *)
Definition flat_track (p : Q) : TrackData :=
  {| track_name := "flat"; artists := "nobody"; album_name := "";
     danceability := 0.0; energy := 0.0; loudness := -10.0; speechiness := 0.0;
     acousticness := 0.0; instrumentalness := 0.0; liveness := 0.1; valence := 0.0;
     tempo := 120.0; popularity := p |}.

(** The same features as a dictionary. *)
Definition flat_features (p : Q) : gmap string Q :=
  list_to_map
    [ ("danceability", 0.0); ("energy", 0.0); ("speechiness", 0.0);
      ("acousticness", 0.0); ("instrumentalness", 0.0); ("valence", 0.0);
      ("popularity", p) ]%string.

(** The shapes on which lines 169-184 raise: a flat sequence of numbers (its
    first entry is a scalar, and [len] of a scalar raises), per-class arrays
    of one row (index 1 is out of bounds), and arrays one of which has no
    entry at index 1. *)
Definition shape_rejected (p : proba) : Prop :=
  match p with
  | NoLen => False
  | Array1 xs | ListOfFloats xs => xs <> []
  | ListOfRowArrays ps => ps <> []
  | Array2 rows | ListOfArrays1 rows => Exists (fun row => (length row < 2)%nat) rows
  | ListOfLists _ => False
  end.

(** Lines 169-184 in one piece: from the scorer's output to the dictionary
    of predictions. *)
Definition adapt (rand : list Q) (p : proba) : result dict :=
  let! probabilities := resolve_shape rand p in predictions_of_scores probabilities.

(** Ten numbers of [0, 1), standing for one draw of [np.random.rand(10)]. *)
Definition sample_draw : list Q := [0.61; 0.07; 0.93; 0.28; 0.55; 0.12; 0.84; 0.39; 0.46; 0.70].

(** [answered MODEL rand tracks rs]: [rs] are the responses of
    [predict_genres] to [tracks], one by one and in order, the [i]-th call
    seeing the [i]-th draw. *)
Inductive answered (MODEL : model)
  : (nat -> list Q) -> list TrackData -> list PredictionResponse -> Prop :=
  | answered_nil rand : answered MODEL rand [] []
  | answered_cons rand t ts r rs :
      predict_genres MODEL (rand 0%nat) t = Ok r ->
      answered MODEL (fun i => rand (S i)) ts rs ->
      answered MODEL rand (t :: ts) (r :: rs).

(** A second request, for batches of two. *)
Definition second_track : TrackData :=
  {| track_name := "Nocturne"; artists := "Chopin"; album_name := "";
     danceability := 0.2; energy := 0.1; loudness := -25.0; speechiness := 0.04;
     acousticness := 0.95; instrumentalness := 0.9; liveness := 0.1; valence := 0.2;
     tempo := 70.0; popularity := 40.0 |}.

(** ** [main.py]: start-up, health and metrics *)

(** A file the start-up looks for: absent, or present with what
    [joblib.load] does on it. *)
Inductive file (A : Type) : Type :=
  | Absent
  | Present (load : result A).
Arguments Absent {A}.
Arguments Present {A} load.

(** The two module-level globals.  The scaler is never read after it is
    loaded; all that is kept of it is whether there is one. *)
Record globals : Type := mkGlobals {
  g_MODEL : model;
  g_SCALER : option unit
}.

Definition globals_initial : globals :=
  {| g_MODEL := MODEL_initial; g_SCALER := None |}.

(** [startup_event]: one [try] around both loads; an exception of the first
    load skips the second, and the handler only logs. *)
Definition startup_event (model_file : file (list (list Q) -> result proba))
    (scaler_file : file unit) (g : globals) : globals :=
  let loaded :=
    match model_file with
    | Present (Ok predict_proba) => Ok {| g_MODEL := ModelLoaded predict_proba; g_SCALER := g_SCALER g |}
    | Present (Raise e) => Raise e
    | Absent => Ok g
    end in
  match loaded with
  | Raise _ => g
  | Ok g1 =>
      match scaler_file with
      | Present (Ok scaler) => {| g_MODEL := g_MODEL g1; g_SCALER := Some scaler |}
      | Present (Raise _) => g1
      | Absent => g1
      end
  end.

(** [MODEL is None] *)
Definition is_None (MODEL : model) : bool :=
  match MODEL with ModelNone => true | _ => false end.

(** The answer of [health_check], without its [timestamp]. *)
Record HealthResponse : Type := mkHealthResponse {
  status : string;
  model_loaded : bool;
  version : string
}.

Definition health_check (g : globals) : HealthResponse :=
  {| status := "healthy"; model_loaded := negb (is_None (g_MODEL g)); version := "2.0.0" |}.

Definition get_available_genres : list string := GENRE_LABELS.

Record MetricsResponse : Type := mkMetricsResponse {
  model_name : string;
  accuracy : Q;
  f1_score : Q;
  training_samples : Z;
  last_trained : string;
  genres_supported : nat;
  demo_mode : bool
}.

Definition get_model_metrics (g : globals) : MetricsResponse :=
  {| model_name := "Support Vector Machine (SVM)";
     accuracy := 0.948;
     f1_score := 0.451;
     training_samples := 114000%Z;
     last_trained := "2025-11-11";
     genres_supported := length GENRE_LABELS;
     demo_mode := is_None (g_MODEL g) |}.

(** ** [utils.py]: the preprocessor *)

(** [preprocess_audio_features]: one row of ten numbers
    ([np.array(feature_list).reshape(1, -1)]).  Nothing raises on a
    dictionary of floats. *)
Definition preprocess_audio_features (features : gmap string Q) : list (list Q) :=
  let feature_list :=
    [ get features "danceability" 0.5;
      get features "energy" 0.5;
      get features "loudness" (-10.0);
      get features "speechiness" 0.05;
      get features "acousticness" 0.1;
      get features "instrumentalness" 0.0;
      get features "liveness" 0.1;
      get features "valence" 0.5;
      get features "tempo" 120.0;
      get features "popularity" 50.0 ] in
  [feature_list].

(** ** Devices of the statements on the rest of the code *)

(** The ten feature fields of a request as a feature dictionary (what
    [track_data.dict()] holds under the feature names). *)
Definition features_dict (t : TrackData) : gmap string Q :=
  list_to_map
    [ ("danceability", danceability t); ("energy", energy t); ("loudness", loudness t);
      ("speechiness", speechiness t); ("acousticness", acousticness t);
      ("instrumentalness", instrumentalness t); ("liveness", liveness t);
      ("valence", valence t); ("tempo", tempo t); ("popularity", popularity t) ]%string.

(** The ten names [preprocess_audio_features] and [validate_audio_features]
    know. *)
Definition feature_names : list string :=
  [ "danceability"; "energy"; "loudness"; "speechiness"; "acousticness";
    "instrumentalness"; "liveness"; "valence"; "tempo"; "popularity" ]%string.

(** The three branches of [calculate_confidence], as a function of
    [max_prob]. *)
Definition confidence_of_max (max_prob : Q) : Q :=
  if Qltb 0.7 max_prob then Qmin 1.0 (max_prob * 1.1)
  else if Qltb 0.3 max_prob then max_prob
  else max_prob * 0.8.

(** Every value of a dictionary multiplied by [c]. *)
Definition scale_values (c : Q) (d : dict) : dict :=
  map (fun gp => (fst gp, snd gp * c)) d.

(** The defaults of [preprocess_audio_features], by feature name. *)
Definition feature_defaults : list (string * Q) :=
  [ ("danceability", 0.5); ("energy", 0.5); ("loudness", -10.0); ("speechiness", 0.05);
    ("acousticness", 0.1); ("instrumentalness", 0.0); ("liveness", 0.1);
    ("valence", 0.5); ("tempo", 120.0); ("popularity", 50.0) ]%string.

(** A feature dictionary with two entries and no tempo. *)
Definition features_dict_without_tempo : gmap string Q :=
  list_to_map [ ("energy", 0.9); ("valence", 0.3) ]%string.

(** A row with two scores only. *)
Definition short_row : list Q := [0.9; 0.1].

(** A request with its loudness, liveness and tempo replaced. *)
Definition with_unread_features (t : TrackData) (loudness' liveness' tempo' : Q) : TrackData :=
  {| track_name := track_name t; artists := artists t; album_name := album_name t;
     danceability := danceability t; energy := energy t; loudness := loudness';
     speechiness := speechiness t; acousticness := acousticness t;
     instrumentalness := instrumentalness t; liveness := liveness';
     valence := valence t; tempo := tempo' ; popularity := popularity t |}.

(** A request [main.py] accepts whose ten raw scores sum to 0, in double
    precision as in exact arithmetic: -1.3 for pop, 0.3 for rock, r_b and
    country, 0.2 for jazz and folk, 0 for the four others. *)
Definition zero_sum_track : TrackData :=
  {| track_name := "silence"; artists := "nobody"; album_name := "";
     danceability := 0.0; energy := 0.0; loudness := -10.0; speechiness := 0.0;
     acousticness := 0.0; instrumentalness := 0.0; liveness := 0.1; valence := 1.0;
     tempo := 120.0; popularity := -650.0 |}.

(** A model that was not loaded: [None], or the path string the module
    starts with. *)
Definition not_loaded (MODEL : model) : Prop :=
  match MODEL with ModelLoaded _ => False | _ => True end.

(** * Properties *)

(** ** Tests and their meaning *)

Lemma Qltb_true (a b : Q) : Qltb a b = true <-> a < b.
Proof.
  unfold Qltb. rewrite negb_true_iff. split.
  - intros H. apply Qnot_le_lt. intros Hle. apply Qle_bool_iff in Hle. congruence.
  - intros H. destruct (Qle_bool b a) eqn:E; [|reflexivity].
    apply Qle_bool_iff in E. lra.
Qed.

Lemma Qltb_false (a b : Q) : Qltb a b = false <-> b <= a.
Proof.
  unfold Qltb. rewrite negb_false_iff. apply Qle_bool_iff.
Qed.

Lemma Qeq_bool_false (a b : Q) : Qeq_bool a b = false <-> ~ a == b.
Proof.
  split.
  - intros H Heq. apply Qeq_bool_iff in Heq. congruence.
  - intros H. destruct (Qeq_bool a b) eqn:E; [|reflexivity].
    apply Qeq_bool_iff in E. contradiction.
Qed.

(** ** Sums, maxima and means of lists of numbers *)

Lemma fold_left_Qplus_acc (xs : list Q) (a : Q) :
  fold_left Qplus xs a == a + fold_left Qplus xs 0.
Proof.
  revert a. induction xs as [|x xs IH]; intros a; simpl.
  - lra.
  - rewrite (IH (a + x)), (IH (0 + x)). lra.
Qed.

Lemma sum_nil : sum [] == 0.
Proof. reflexivity. Qed.

Lemma sum_cons (x : Q) (xs : list Q) : sum (x :: xs) == x + sum xs.
Proof.
  unfold sum. simpl. rewrite fold_left_Qplus_acc. lra.
Qed.

Lemma sum_nonneg (xs : list Q) : Forall (fun x => 0 <= x) xs -> 0 <= sum xs.
Proof.
  induction 1 as [|x xs Hx _ IH].
  - rewrite sum_nil. lra.
  - rewrite sum_cons. lra.
Qed.

Lemma sum_bounds_member (xs : list Q) (x : Q) :
  Forall (fun y => 0 <= y) xs -> In x xs -> x <= sum xs.
Proof.
  induction 1 as [|y ys Hy Hys IH]; intros Hin; [contradiction|].
  rewrite sum_cons. pose proof (sum_nonneg ys Hys) as Hs.
  destruct Hin as [->|Hin]; [lra|]. specialize (IH Hin). lra.
Qed.

Lemma sum_map_linear (f : Q -> Q) (k : Q) (xs : list Q) :
  (forall x, f x == x * k) -> sum (map f xs) == sum xs * k.
Proof.
  intros Hf. induction xs as [|x xs IH]; simpl.
  - rewrite sum_nil. lra.
  - rewrite !sum_cons, IH, Hf. lra.
Qed.

Lemma sum_map_const (c : Q) (xs : list Q) :
  sum (map (fun _ => c) xs) == inject_Z (Z.of_nat (length xs)) * c.
Proof.
  induction xs as [|x xs IH].
  - cbn [map length]. rewrite sum_nil. change (inject_Z (Z.of_nat 0)) with 0. lra.
  - cbn [map length]. rewrite sum_cons, IH, Nat2Z.inj_succ.
    unfold Z.succ. rewrite inject_Z_plus. change (inject_Z 1) with 1. lra.
Qed.

Lemma max_from_ge_acc (x : Q) (xs : list Q) : x <= max_from x xs.
Proof.
  revert x. induction xs as [|y ys IH]; intros x; unfold max_from in *; simpl.
  - lra.
  - specialize (IH (Qmax x y)). pose proof (Q.le_max_l x y). lra.
Qed.

Lemma max_from_is_max (x : Q) (xs : list Q) : is_max (max_from x xs) (x :: xs).
Proof.
  revert x. induction xs as [|y ys IH]; intros x.
  - split; [left; reflexivity | repeat constructor; unfold max_from; simpl; lra].
  - change (max_from x (y :: ys)) with (max_from (Qmax x y) ys).
    destruct (IH (Qmax x y)) as [Hex Hall].
    apply Forall_cons_1 in Hall as [Hm Hall].
    pose proof (Q.le_max_l x y) as Hl. pose proof (Q.le_max_r x y) as Hr.
    split.
    + apply Exists_cons in Hex as [Hex|Hex].
      * destruct (Q.max_spec x y) as [[_ Hxy]|[_ Hxy]].
        -- right. left. lra.
        -- left. lra.
      * right. right. exact Hex.
    + constructor; [lra|]. constructor; [lra|]. exact Hall.
Qed.

Lemma is_max_unique (m1 m2 : Q) (xs : list Q) :
  is_max m1 xs -> is_max m2 xs -> m1 == m2.
Proof.
  intros [E1 A1] [E2 A2].
  apply Exists_exists in E1 as (x1 & In1 & Hx1).
  apply Exists_exists in E2 as (x2 & In2 & Hx2).
  rewrite Forall_forall in A1, A2.
  pose proof (A1 x2 In2). pose proof (A2 x1 In1). lra.
Qed.

(** ** Dictionaries *)

Lemma values_map_values (f : Q -> Q) (d : dict) :
  values (map (fun gp => (fst gp, f (snd gp))) d) = map f (values d).
Proof.
  unfold values. rewrite !map_map. reflexivity.
Qed.

Lemma keys_map_values (f : Q -> Q) (d : dict) :
  keys (map (fun gp => (fst gp, f (snd gp))) d) = keys d.
Proof.
  unfold keys. rewrite map_map. reflexivity.
Qed.

Lemma length_values (d : dict) : length (values d) = length d.
Proof. unfold values. apply length_map. Qed.

Lemma dict_equiv_refl (d : dict) : dict_equiv d d.
Proof.
  induction d as [|gp d IH]; constructor; [split; reflexivity | exact IH].
Qed.

Lemma dict_equiv_div_one (total : Q) (d : dict) :
  total == 1 -> dict_equiv (map (fun gp => (fst gp, snd gp / total)) d) d.
Proof.
  intros H1. induction d as [|gp d IH]; constructor; [|exact IH].
  split; [reflexivity|]. cbn [fst snd]. rewrite H1. field.
Qed.

(** ** The confidence estimator of [utils.py] *)

Lemma calculate_confidence_tiered (d : dict) :
  tiered_confidence (values d) (calculate_confidence d).
Proof.
  unfold calculate_confidence, tiered_confidence.
  destruct (values d) as [|v vs]; [reflexivity|].
  exists (max_from v vs). split; [apply max_from_is_max|].
  destruct (Qltb 0.7 (max_from v vs)) eqn:E7.
  - apply Qltb_true in E7. left. split; [exact E7 | reflexivity].
  - apply Qltb_false in E7.
    destruct (Qltb 0.3 (max_from v vs)) eqn:E3.
    + apply Qltb_true in E3. right. left. repeat split; [exact E3 | exact E7].
    + apply Qltb_false in E3. right. right. split; [exact E3 | reflexivity].
Qed.

(** ** What both endpoints put in a response *)

Lemma demo_predict_fields (t : TrackData) (r : PredictionResponse) :
  demo_predict t = Ok r ->
  top_genres r = select_top_genres (predictions r) /\
  confidence r = np_mean (values (predictions r)) /\
  model_version r = "DEMO-MODE"%string /\
  keys (predictions r) = GENRE_LABELS.
Proof.
  unfold demo_predict, scale_by_total.
  destruct (Qeq_bool _ 0); cbn [bind]; [discriminate|].
  intros [= <-]. cbn [top_genres predictions confidence model_version].
  repeat split; reflexivity.
Qed.

Lemma keys_predictions_of_scores (s : scores) (d : dict) :
  predictions_of_scores s = Ok d -> keys d = GENRE_LABELS.
Proof.
  destruct s as [xs|x]; [|discriminate]. intros [= <-]. reflexivity.
Qed.

Lemma trained_predict_fields (MODEL : model) (rand : list Q) (t : TrackData)
    (r : PredictionResponse) :
  trained_predict MODEL rand t = Ok r ->
  top_genres r = select_top_genres (predictions r) /\
  confidence r = np_mean (values (predictions r)) /\
  model_version r = "SVM-v2.0"%string /\
  keys (predictions r) = GENRE_LABELS.
Proof.
  unfold trained_predict.
  destruct (call_predict_proba MODEL _) as [p|e]; cbn [bind]; [|discriminate].
  destruct (resolve_shape rand p) as [s|e]; cbn [bind]; [|discriminate].
  destruct (predictions_of_scores s) as [d|e] eqn:Ed; cbn [bind]; [|discriminate].
  intros [= <-]. cbn [top_genres predictions confidence model_version].
  repeat split; try reflexivity. eapply keys_predictions_of_scores, Ed.
Qed.

Lemma predict_genres_cases (MODEL : model) (rand : list Q) (t : TrackData) :
  predict_genres MODEL rand t = trained_predict MODEL rand t /\
    is_Ok (trained_predict MODEL rand t)
  \/ predict_genres MODEL rand t = demo_predict t /\
    ~ is_Ok (trained_predict MODEL rand t).
Proof.
  destruct MODEL as [|path|f]; cbn [predict_genres].
  - right. split; [reflexivity|]. cbn. tauto.
  - right. split; [reflexivity|]. cbn. tauto.
  - destruct (trained_predict (ModelLoaded f) rand t) as [r|e];
      cbn [try_except is_Ok]; [left|right]; tauto.
Qed.

Lemma predict_genres_fields (MODEL : model) (rand : list Q) (t : TrackData)
    (r : PredictionResponse) :
  predict_genres MODEL rand t = Ok r ->
  top_genres r = select_top_genres (predictions r) /\
  confidence r = np_mean (values (predictions r)) /\
  keys (predictions r) = GENRE_LABELS.
Proof.
  intros H. destruct (predict_genres_cases MODEL rand t) as [[E _]|[E _]];
    rewrite E in H.
  - apply trained_predict_fields in H. tauto.
  - apply demo_predict_fields in H. tauto.
Qed.

(** ** C1: the confidence of a prediction *)

(** C1, as the code has it: [calculate_confidence] computes the tiered
    function of the maximum probability (0.0 on the empty mapping), but no
    prediction endpoint calls it: on the trained path and on the heuristic
    path alike, the [confidence] of the response is the arithmetic mean of
    the ten genre probabilities. *)
Theorem C1_confidence_is_mean_of_probabilities :
  (forall d : dict, tiered_confidence (values d) (calculate_confidence d)) /\
  (forall (MODEL : model) (rand : list Q) (t : TrackData) (r : PredictionResponse),
      predict_genres MODEL rand t = Ok r ->
      length (predictions r) = 10%nat /\
      confidence r = np_mean (values (predictions r))).
Proof.
  split; [exact calculate_confidence_tiered|].
  intros MODEL rand t r H. apply predict_genres_fields in H as (_ & Hc & Hk).
  split; [|exact Hc].
  unfold keys in Hk. apply (f_equal (@length string)) in Hk.
  rewrite length_map in Hk. exact Hk.
Qed.

Lemma not_tiered_when_low (probs : list Q) (m c : Q) :
  is_max m probs -> m <= 0.3 -> ~ c == m * 0.8 -> ~ tiered_confidence probs c.
Proof.
  intros Hm Hlow Hc. unfold tiered_confidence.
  destruct probs as [|p ps]; [destruct Hm as [Hm _]; inversion Hm|].
  intros (m' & Hm' & Hcases).
  pose proof (is_max_unique _ _ _ Hm Hm') as Heq.
  destruct Hcases as [[H _]|[[H _]|[_ H]]]; [lra|lra|].
  apply Hc. rewrite H. lra.
Qed.

Lemma not_tiered_when_high (probs : list Q) (m c : Q) :
  is_max m probs -> 0.7 < m -> ~ c == Qmin 1.0 (m * 1.1) -> ~ tiered_confidence probs c.
Proof.
  intros Hm Hhigh Hc. unfold tiered_confidence.
  destruct probs as [|p ps]; [destruct Hm as [Hm _]; inversion Hm|].
  intros (m' & Hm' & Hcases).
  pose proof (is_max_unique _ _ _ Hm Hm') as Heq.
  destruct Hcases as [[_ H]|[(_ & H & _)|[H _]]]; [|lra|lra].
  apply Hc. rewrite H, Heq. reflexivity.
Qed.

(** Evaluate the probabilities and the confidence of a concrete response. *)
Ltac evaluate_response :=
  match goal with
  | |- ~ tiered_confidence (values ?d) ?c =>
      let d' := eval vm_compute in d in
      let c' := eval vm_compute in c in
      change (~ tiered_confidence (values d') c'); cbn [values map snd]
  end.

Ltac apply_max_from :=
  match goal with
  | |- is_max _ (?v :: ?vs) => apply (max_from_is_max v vs)
  end.

(** C1 fails as stated: for the example request of [schemas.py] the
    heuristic path answers with confidence 0.08, not with 0.8 times the
    largest probability; and a trained scorer whose row peaks at 0.9 gets
    confidence 0.1, not 0.99. *)
Lemma C1_counterexample :
  (exists r, predict_genres MODEL_initial [] example_track = Ok r /\
             confidence r == 0.08 /\
             ~ tiered_confidence (values (predictions r)) (confidence r)) /\
  (exists r, predict_genres (rows_model peaked_row) [] example_track = Ok r /\
             confidence r == 0.1 /\
             ~ tiered_confidence (values (predictions r)) (confidence r)).
Proof.
  split.
  - eexists. split; [reflexivity|]. split; [vm_compute; reflexivity|].
    evaluate_response.
    eapply not_tiered_when_low; [apply_max_from | |]; vm_compute; congruence.
  - eexists. split; [reflexivity|]. split; [vm_compute; reflexivity|].
    evaluate_response.
    eapply not_tiered_when_high; [apply_max_from | |]; vm_compute; congruence.
Qed.

(** ** C5: the top genres *)

Lemma select_top_genres_spec (d : dict) (g : string) :
  In g (select_top_genres d) <-> exists p, In (g, p) d /\ 0.5 < p.
Proof.
  unfold select_top_genres. rewrite in_map_iff. split.
  - intros ([g' p] & <- & Hin). apply filter_In in Hin as [Hin Hp].
    exists p. split; [exact Hin|]. apply Qltb_true. exact Hp.
  - intros (p & Hin & Hp). exists (g, p). split; [reflexivity|].
    apply filter_In. split; [exact Hin|]. apply Qltb_true. exact Hp.
Qed.

Lemma select_top_genres_at_threshold (d : dict) :
  Forall (fun gp => snd gp == 0.5) d -> select_top_genres d = [].
Proof.
  unfold select_top_genres. induction 1 as [|gp d Hgp _ IH]; [reflexivity|].
  cbn [List.filter]. replace (Qltb 0.5 (snd gp)) with false; [exact IH|].
  symmetry. apply Qltb_false. rewrite Hgp. lra.
Qed.

(** The selected genres come in the order of the dictionary. *)
Lemma select_top_genres_sublist (d : dict) : sublist (select_top_genres d) (keys d).
Proof.
  unfold select_top_genres, keys. induction d as [|gp d IH]; [constructor|].
  cbn [List.filter map]. destruct (Qltb 0.5 (snd gp)); cbn [map];
    [apply sublist_skip | apply sublist_cons]; exact IH.
Qed.

(** C5: the top genres of a response are exactly the genres of its
    probability mapping whose probability is strictly greater than 0.5; a
    mapping that is 0.5 everywhere selects nothing; no count is enforced: the
    selection can be empty and can hold all ten labels. *)
Theorem C5_top_genres_strictly_above_half :
  (forall (MODEL : model) (rand : list Q) (t : TrackData) (r : PredictionResponse),
      predict_genres MODEL rand t = Ok r ->
      top_genres r = select_top_genres (predictions r)) /\
  (forall (d : dict) (g : string),
      In g (select_top_genres d) <-> exists p, In (g, p) d /\ 0.5 < p) /\
  (forall d : dict, Forall (fun gp => snd gp == 0.5) d -> select_top_genres d = []) /\
  select_top_genres (map (fun g => (g, 0.5)) GENRE_LABELS) = [] /\
  select_top_genres (map (fun g => (g, 0.9)) GENRE_LABELS) = GENRE_LABELS.
Proof.
  split; [|split; [|split; [|split]]].
  - intros MODEL rand t r H. apply predict_genres_fields in H. tauto.
  - exact select_top_genres_spec.
  - exact select_top_genres_at_threshold.
  - reflexivity.
  - reflexivity.
Qed.

(** ** C7: the normaliser *)

Lemma normalize_predictions_positive (d : dict) :
  0 < sum (values d) ->
  normalize_predictions d = map (fun gp => (fst gp, snd gp / sum (values d))) d /\
  sum (values (normalize_predictions d)) == 1.
Proof.
  intros Hpos. unfold normalize_predictions.
  replace (Qltb 0 (sum (values d))) with true by (symmetry; apply Qltb_true; exact Hpos).
  split; [reflexivity|].
  rewrite (values_map_values (fun x => x / sum (values d))).
  rewrite (sum_map_linear _ (/ sum (values d))); [|intros x; reflexivity].
  field. lra.
Qed.

Lemma normalize_predictions_nonpositive (d : dict) :
  sum (values d) <= 0 -> normalize_predictions d = d.
Proof.
  intros Hle. unfold normalize_predictions.
  replace (Qltb 0 (sum (values d))) with false by (symmetry; apply Qltb_false; exact Hle).
  reflexivity.
Qed.

Lemma normalize_predictions_unit_sum (d : dict) :
  sum (values d) == 1 -> dict_equiv (normalize_predictions d) d.
Proof.
  intros H1.
  destruct (normalize_predictions_positive d) as [-> _]; [lra|].
  apply dict_equiv_div_one, H1.
Qed.

(** C7: when the sum of the values is positive every value is divided by it
    and the results sum to 1; otherwise the mapping is returned as it is;
    hence a mapping that sums to 1 is left with the same numbers, and
    normalising twice is normalising once. *)
Theorem C7_normalize_predictions :
  forall d : dict,
    (0 < sum (values d) ->
       normalize_predictions d = map (fun gp => (fst gp, snd gp / sum (values d))) d /\
       sum (values (normalize_predictions d)) == 1) /\
    (sum (values d) <= 0 -> normalize_predictions d = d) /\
    (sum (values d) == 1 -> dict_equiv (normalize_predictions d) d) /\
    dict_equiv (normalize_predictions (normalize_predictions d)) (normalize_predictions d).
Proof.
  intros d. split; [|split; [|split]].
  - apply normalize_predictions_positive.
  - apply normalize_predictions_nonpositive.
  - apply normalize_predictions_unit_sum.
  - destruct (Qlt_le_dec 0 (sum (values d))) as [Hpos|Hle].
    + apply normalize_predictions_unit_sum, normalize_predictions_positive, Hpos.
    + rewrite !(normalize_predictions_nonpositive d Hle). apply dict_equiv_refl.
Qed.

(** ** The heuristic scores *)

Ltac split_ranges H :=
  destruct H as [[? ?] [? ?] [? ?] [? ?] [? ?] [? ?] [? ?] [? ?] [? ?] [? ?]].

Lemma base_probs_nonneg (t : TrackData) :
  schema_valid t -> Forall (fun x => 0 <= x) (values (base_probs t)).
Proof.
  intros H. split_ranges H. unfold base_probs. cbn [values map snd].
  repeat (constructor; [apply Q.min_glb; lra|]). constructor.
Qed.

(** [rock] and [electronic] cannot both vanish: the first is positive while
    danceability is below 1, the second when it is 1. *)
Lemma base_probs_total_positive (t : TrackData) :
  schema_valid t -> 0 < sum (values (base_probs t)).
Proof.
  intros H. pose proof (base_probs_nonneg t H) as Hnn. split_ranges H.
  unfold base_probs in *. cbn [values map snd] in *.
  rewrite !sum_cons, sum_nil.
  repeat match goal with
         | Hf : Forall _ (_ :: _) |- _ => apply Forall_cons_1 in Hf as [? Hf]
         end.
  destruct (Q.min_spec 0.6 (energy t * 0.7 + (1 - danceability t) * 0.3)) as [[_ Hr]|[_ Hr]];
    destruct (Q.min_spec 0.8 (energy t * 0.7 + danceability t * 0.5)) as [[_ He]|[_ He]];
    lra.
Qed.

(** Scaling non-negative scores with a positive sum to a total mass [c]. *)
Lemma scaled_scores_bounds (c : Q) (base : list Q) :
  0 <= c -> Forall (fun x => 0 <= x) base -> 0 < sum base ->
  sum (map (fun x => x / sum base * c) base) == c /\
  Forall (fun p => 0 <= p /\ p <= c) (map (fun x => x / sum base * c) base).
Proof.
  intros Hc Hnn Hpos. split.
  - rewrite (sum_map_linear _ (/ sum base * c)).
    + field. lra.
    + intros x. unfold Qdiv. ring.
  - apply List.Forall_forall. intros p Hp. apply in_map_iff in Hp as (x & <- & Hx).
    pose proof (sum_bounds_member base x Hnn Hx) as Hle.
    rewrite List.Forall_forall in Hnn. specialize (Hnn x Hx).
    assert (0 <= x / sum base) as H0.
    { apply Qle_shift_div_l; lra. }
    assert (x / sum base <= 1) as H1.
    { apply Qle_shift_div_r; lra. }
    split; nra.
Qed.

Lemma scaled_scores_sum (c total : Q) (base : list Q) :
  total == sum base -> ~ total == 0 ->
  sum (map (fun x => x / total * c) base) == c.
Proof.
  intros Ht Hnz. rewrite (sum_map_linear _ (/ total * c)).
  - rewrite <- Ht. field. exact Hnz.
  - intros x. unfold Qdiv. ring.
Qed.

(** ** The demo path of [main.py] *)

Lemma demo_predict_returns (t : TrackData) :
  ~ sum (values (base_probs t)) == 0 ->
  exists r, demo_predict t = Ok r /\
    predictions r =
      map (fun gp => (fst gp, snd gp / sum (values (base_probs t)) * 0.8)) (base_probs t).
Proof.
  intros Hnz. unfold demo_predict, scale_by_total.
  replace (Qeq_bool (sum (values (base_probs t))) 0) with false
    by (symmetry; apply Qeq_bool_false; exact Hnz).
  cbn [bind]. eexists. split; reflexivity.
Qed.

Lemma demo_predict_raises (t : TrackData) :
  sum (values (base_probs t)) == 0 -> demo_predict t = Raise ZeroDivisionError.
Proof.
  intros Hz. unfold demo_predict, scale_by_total.
  replace (Qeq_bool (sum (values (base_probs t))) 0) with true
    by (symmetry; apply Qeq_bool_iff; exact Hz).
  reflexivity.
Qed.

Lemma demo_predict_confidence (t : TrackData) (r : PredictionResponse) :
  demo_predict t = Ok r -> confidence r == 0.08.
Proof.
  intros H. pose proof H as Hf. apply demo_predict_fields in Hf as (_ & -> & _).
  destruct (Qeq_dec (sum (values (base_probs t))) 0) as [Hz|Hnz].
  - rewrite (demo_predict_raises t Hz) in H. discriminate.
  - destruct (demo_predict_returns t Hnz) as (r' & Hr' & Hp).
    rewrite H in Hr'. injection Hr' as <-. rewrite Hp. unfold np_mean.
    rewrite (values_map_values (fun x => x / sum (values (base_probs t)) * 0.8)).
    rewrite scaled_scores_sum; [|reflexivity|exact Hnz].
    rewrite length_map, length_values. reflexivity.
Qed.

(** ** C10: no division by zero on valid features *)

(** C10: when the ten feature fields lie in the ranges [schemas.py]
    declares, the ten raw scores of [demo_predict] have a strictly positive
    sum, so the division by that sum is defined and the demo path returns a
    response. *)
Theorem C10_valid_features_positive_total (t : TrackData) :
  schema_valid t ->
  0 < sum (values (base_probs t)) /\ exists r, demo_predict t = Ok r.
Proof.
  intros H. pose proof (base_probs_total_positive t H) as Hpos.
  split; [exact Hpos|].
  destruct (demo_predict_returns t) as (r & Hr & _); [lra|]. exists r. exact Hr.
Qed.

Lemma example_track_valid : schema_valid example_track.
Proof.
  constructor; split; vm_compute; congruence.
Qed.

Lemma C10_witness :
  0 < sum (values (base_probs example_track)) /\ exists r, demo_predict example_track = Ok r.
Proof.
  apply (C10_valid_features_positive_total example_track), example_track_valid.
Defined.

(** ** C9: the confidence of the demo path *)

(** C9: whenever the ten raw scores have a strictly positive sum, the demo
    path returns, and its confidence, the mean of ten probabilities that sum
    to 0.8, is 0.08 whatever the features are. *)
Theorem C9_demo_confidence_constant (t : TrackData) :
  0 < sum (values (base_probs t)) ->
  exists r, demo_predict t = Ok r /\
            sum (values (predictions r)) == 0.8 /\
            confidence r == 0.08.
Proof.
  intros Hpos. destruct (demo_predict_returns t) as (r & Hr & Hp); [lra|].
  exists r. split; [exact Hr|]. split; [|eapply demo_predict_confidence, Hr].
  rewrite Hp, (values_map_values (fun x => x / sum (values (base_probs t)) * 0.8)).
  apply scaled_scores_sum; [reflexivity|lra].
Qed.

Lemma C9_witness :
  exists r, demo_predict example_track = Ok r /\
            sum (values (predictions r)) == 0.8 /\
            confidence r == 0.08.
Proof.
  apply (C9_demo_confidence_constant example_track). vm_compute. reflexivity.
Defined.

(** ** The feature dictionary of [utils.py] *)

Lemma mock_base_probs_eq (features : gmap string Q) :
  mock_base_probs features = base_probs (track_of_features features).
Proof. reflexivity. Qed.

Lemma validate_audio_features_lookup (features : gmap string Q) (key : string)
    (value lo hi : Q) :
  validate_audio_features features = true ->
  features !! key = Some value -> valid_ranges !! key = Some (lo, hi) ->
  in_range lo hi value.
Proof.
  unfold validate_audio_features. intros Hall Hk Hr.
  rewrite forallb_forall in Hall.
  assert (In (key, value) (map_to_list features)) as Hin.
  { apply list_elem_of_In, elem_of_map_to_list, Hk. }
  apply Hall in Hin. unfold feature_ok in Hin. cbn [fst snd] in Hin.
  rewrite Hr in Hin. apply andb_true_iff in Hin as [H1 H2].
  split; apply Qle_bool_iff; assumption.
Qed.

Lemma validate_audio_features_get (features : gmap string Q) (key : string)
    (dflt lo hi : Q) :
  validate_audio_features features = true ->
  valid_ranges !! key = Some (lo, hi) -> in_range lo hi dflt ->
  in_range lo hi (get features key dflt).
Proof.
  intros Hall Hr Hd. unfold get.
  destruct (features !! key) as [value|] eqn:Hk; cbn [default].
  - eapply validate_audio_features_lookup; eassumption.
  - exact Hd.
Qed.

Lemma validate_audio_features_schema (features : gmap string Q) :
  validate_audio_features features = true -> schema_valid (track_of_features features).
Proof.
  intros Hall.
  constructor; cbn [track_of_features danceability energy loudness speechiness
                    acousticness instrumentalness liveness valence tempo popularity];
    (apply validate_audio_features_get;
     [exact Hall | reflexivity | split; vm_compute; congruence]).
Qed.

Lemma generate_mock_predictions_positive (features : gmap string Q) :
  0 < sum (values (mock_base_probs features)) ->
  generate_mock_predictions features =
    map (fun gp => (fst gp, snd gp / sum (values (mock_base_probs features)) * 0.8))
        (mock_base_probs features).
Proof.
  intros Hpos. unfold generate_mock_predictions.
  replace (Qltb 0 _) with true by (symmetry; apply Qltb_true; exact Hpos).
  reflexivity.
Qed.

(** The guarded branch of [generate_mock_predictions]. *)
Lemma generate_mock_predictions_nonpositive (features : gmap string Q) :
  sum (values (mock_base_probs features)) <= 0 ->
  generate_mock_predictions features = map (fun genre => (genre, 0.08)) GENRE_LABELS.
Proof.
  intros Hle. unfold generate_mock_predictions.
  replace (Qltb 0 _) with false by (symmetry; apply Qltb_false; exact Hle).
  reflexivity.
Qed.

(** ** C2: the mass of the heuristic probabilities *)

Lemma scaled_base_probs_mass (t : TrackData) :
  schema_valid t ->
  mass_at_most 0.8
    (map (fun gp => (fst gp, snd gp / sum (values (base_probs t)) * 0.8)) (base_probs t)).
Proof.
  intros H. unfold mass_at_most.
  rewrite (values_map_values (fun x => x / sum (values (base_probs t)) * 0.8)).
  destruct (scaled_scores_bounds 0.8 (values (base_probs t))) as [Hs Hb].
  - lra.
  - apply base_probs_nonneg, H.
  - apply base_probs_total_positive, H.
  - split; [lra | exact Hb].
Qed.

(** C2: for features in the valid ranges the heuristic path returns, for
    each of the ten genres in the order of the labels, the raw score of the
    genre divided by the sum of the ten raw scores and multiplied by 0.8;
    these ten probabilities sum to 0.8, hence to at most 0.8, and each lies
    between 0 and 0.8.  So it is on the demo path of [main.py], which then
    returns, and in [generate_mock_predictions] of [utils.py]. *)
Theorem C2_heuristic_mass_at_most_08 :
  (forall t : TrackData, schema_valid t ->
     exists r, demo_predict t = Ok r /\
       predictions r =
         map (fun gp => (fst gp, snd gp / sum (values (base_probs t)) * 0.8)) (base_probs t) /\
       keys (predictions r) = GENRE_LABELS /\
       sum (values (predictions r)) == 0.8 /\
       mass_at_most 0.8 (predictions r)) /\
  (forall features : gmap string Q, validate_audio_features features = true ->
     generate_mock_predictions features =
       map (fun gp => (fst gp, snd gp / sum (values (mock_base_probs features)) * 0.8))
           (mock_base_probs features) /\
     keys (generate_mock_predictions features) = GENRE_LABELS /\
     sum (values (generate_mock_predictions features)) == 0.8 /\
     mass_at_most 0.8 (generate_mock_predictions features)).
Proof.
  split.
  - intros t H. pose proof (base_probs_total_positive t H) as Hpos.
    destruct (demo_predict_returns t) as (r & Hr & Hp); [lra|].
    exists r. split; [exact Hr|]. split; [exact Hp|].
    split; [apply (demo_predict_fields t r Hr)|].
    split; [|rewrite Hp; apply scaled_base_probs_mass, H].
    rewrite Hp, (values_map_values (fun x => x / sum (values (base_probs t)) * 0.8)).
    apply scaled_scores_sum; [reflexivity | lra].
  - intros features H. apply validate_audio_features_schema in H.
    pose proof (base_probs_total_positive _ H) as Hpos.
    rewrite <- mock_base_probs_eq in Hpos.
    pose proof (generate_mock_predictions_positive features Hpos) as E.
    split; [exact E|]. rewrite E.
    split; [reflexivity|].
    split; [|rewrite mock_base_probs_eq; apply scaled_base_probs_mass, H].
    rewrite (values_map_values (fun x => x / sum (values (mock_base_probs features)) * 0.8)).
    apply scaled_scores_sum; [reflexivity | lra].
Qed.

Lemma C2_witness :
  (exists r, demo_predict example_track = Ok r /\
     predictions r =
       map (fun gp => (fst gp, snd gp / sum (values (base_probs example_track)) * 0.8))
           (base_probs example_track) /\
     keys (predictions r) = GENRE_LABELS /\
     sum (values (predictions r)) == 0.8 /\
     mass_at_most 0.8 (predictions r)) /\
  (generate_mock_predictions example_features =
     map (fun gp => (fst gp, snd gp / sum (values (mock_base_probs example_features)) * 0.8))
         (mock_base_probs example_features) /\
   keys (generate_mock_predictions example_features) = GENRE_LABELS /\
   sum (values (generate_mock_predictions example_features)) == 0.8 /\
   mass_at_most 0.8 (generate_mock_predictions example_features)).
Proof.
  split.
  - apply (proj1 C2_heuristic_mass_at_most_08 example_track), example_track_valid.
  - apply (proj2 C2_heuristic_mass_at_most_08 example_features). vm_compute. reflexivity.
Defined.

(** ** C6: the raw scores that do not sum to a positive number *)

(** C6 holds of [generate_mock_predictions] and fails on the demo path of
    [main.py], which divides without the test [total > 0]: with popularity
    -1000 the raw scores sum to -1.1 and the response carries 16/11 for pop
    and negative numbers for four genres; with popularity -450 the sum is 0
    and the division raises.  On the same features
    [generate_mock_predictions] answers 0.08 for every genre. *)
Theorem C6_demo_predict_divides_without_guard :
  sum (values (base_probs (flat_track (-1000.0)))) == -1.1 /\
  (exists r, demo_predict (flat_track (-1000.0)) = Ok r /\
             dict_equiv (predictions r)
               [ ("pop", 16 # 11); ("rock", -12 # 55); ("hip_hop", 0); ("jazz", -8 # 55);
                 ("electronic", 0); ("classical", 0); ("r_b", 0); ("country", 0);
                 ("metal", -8 # 55); ("folk", -8 # 55) ]%string) /\
  sum (values (base_probs (flat_track (-450.0)))) == 0 /\
  demo_predict (flat_track (-450.0)) = Raise ZeroDivisionError /\
  generate_mock_predictions (flat_features (-1000.0)) =
    map (fun genre => (genre, 0.08)) GENRE_LABELS /\
  generate_mock_predictions (flat_features (-450.0)) =
    map (fun genre => (genre, 0.08)) GENRE_LABELS.
Proof.
  split; [vm_compute; reflexivity|].
  split.
  { eexists. split; [reflexivity|].
    repeat (constructor; [split; [reflexivity | vm_compute; reflexivity]|]).
    constructor. }
  split; [vm_compute; reflexivity|].
  split; [reflexivity|].
  split; vm_compute; reflexivity.
Qed.

(** ** The adapter of the trained path *)

Lemma predictions_of_scores_lookup (xs : list Q) (i : nat) (genre : string) :
  GENRE_LABELS !! i = Some genre ->
  exists d, predictions_of_scores (Seq xs) = Ok d /\
            d !! i = Some (genre, default 0.0 (xs !! i)).
Proof.
  intros Hg.
  exists (imap (fun i genre =>
                  (genre, if (i <? length xs)%nat then default 0.0 (xs !! i) else 0.0))
               GENRE_LABELS).
  split; [reflexivity|].
  apply list_lookup_imap_Some. exists genre. split; [exact Hg|].
  destruct (Nat.ltb_spec i (length xs)) as [Hlt|Hge]; [reflexivity|].
  rewrite (lookup_ge_None_2 xs i) by lia. reflexivity.
Qed.

(** A list of rows: the first row is read by position. *)
Lemma trained_predict_list_of_lists (f : list (list Q) -> result proba)
    (rand : list Q) (t : TrackData) (row : list Q) (rest : list (list Q)) :
  f [features_of t] = Ok (ListOfLists (row :: rest)) ->
  exists r, predict_genres (ModelLoaded f) rand t = Ok r /\
            model_version r = "SVM-v2.0"%string /\
            forall i genre, GENRE_LABELS !! i = Some genre ->
                            predictions r !! i = Some (genre, default 0.0 (row !! i)).
Proof.
  intros Hf. unfold predict_genres, trained_predict, call_predict_proba.
  rewrite Hf. cbn [bind resolve_shape has_positive_len length Nat.eqb negb].
  eexists. split; [reflexivity|]. split; [reflexivity|].
  intros i genre Hg. cbn [predictions].
  destruct (predictions_of_scores_lookup row i genre Hg) as (d & [= <-] & Hd).
  exact Hd.
Qed.

(** Per-class pairs as 1-D arrays: the entry at index 1 of each pair. *)
Lemma comprehension_index1_pairs (pairs : list (Q * Q)) :
  comprehension index1 (map (fun np => [fst np; snd np]) pairs) = Ok (map snd pairs).
Proof.
  induction pairs as [|[n p] pairs IH]; [reflexivity|].
  cbn [map comprehension]. rewrite IH. reflexivity.
Qed.

Lemma trained_predict_pairs (f : list (list Q) -> result proba)
    (rand : list Q) (t : TrackData) (pair : Q * Q) (pairs : list (Q * Q)) :
  f [features_of t] = Ok (ListOfArrays1 (map (fun np => [fst np; snd np]) (pair :: pairs))) ->
  exists r, predict_genres (ModelLoaded f) rand t = Ok r /\
            model_version r = "SVM-v2.0"%string /\
            forall i genre, GENRE_LABELS !! i = Some genre ->
              predictions r !! i = Some (genre, default 0.0 (map snd (pair :: pairs) !! i)).
Proof.
  intros Hf. unfold predict_genres, trained_predict, call_predict_proba.
  rewrite Hf. cbn [bind]. unfold resolve_shape.
  replace (has_positive_len (ListOfArrays1 (map (fun np => [fst np; snd np]) (pair :: pairs))))
    with true by reflexivity.
  rewrite comprehension_index1_pairs. cbn [bind].
  eexists. split; [reflexivity|]. split; [reflexivity|].
  intros i genre Hg. cbn [predictions].
  destruct (predictions_of_scores_lookup (map snd (pair :: pairs)) i genre Hg)
    as (d & [= <-] & Hd).
  exact Hd.
Qed.

(** ** C4: a row of per-genre probabilities in a 2-D array *)

(** C4 fails on the shape a multi-class classifier returns for one sample,
    a 2-D array with a single row of per-genre probabilities: the first row
    is itself an array, so the row is read as a pair; its entry at index 1
    goes to the first genre, pop, and every other genre gets 0.0. *)
Theorem C4_single_row_array_read_as_pair :
  forall (rand : list Q) (t : TrackData) (p0 p1 : Q) (rest : list Q),
    exists r,
      predict_genres (ModelLoaded (fun _ => Ok (Array2 [p0 :: p1 :: rest]))) rand t = Ok r /\
      model_version r = "SVM-v2.0"%string /\
      predictions r =
        [ ("pop", p1); ("rock", 0.0); ("hip_hop", 0.0); ("jazz", 0.0); ("electronic", 0.0);
          ("classical", 0.0); ("r_b", 0.0); ("country", 0.0); ("metal", 0.0);
          ("folk", 0.0) ]%string.
Proof.
  intros rand t p0 p1 rest. eexists. split; [reflexivity|]. split; reflexivity.
Qed.

(** ** C3: the fallback of [predict_genres] *)

Lemma comprehension_index1_raises (rows : list (list Q)) :
  Exists (fun row => (length row < 2)%nat) rows ->
  ~ is_Ok (comprehension index1 rows).
Proof.
  induction 1 as [row rows Hrow|row rows _ IH]; cbn [comprehension].
  - unfold index1. rewrite (lookup_ge_None_2 row 1) by lia. cbn. tauto.
  - destruct (index1 row); cbn [bind]; [|cbn; tauto].
    destruct (comprehension index1 rows); cbn [bind is_Ok] in *; tauto.
Qed.

Lemma adapt_rejects (rand : list Q) (p : proba) :
  shape_rejected p -> ~ is_Ok (adapt rand p).
Proof.
  unfold adapt, resolve_shape.
  destruct p as [|xs|rows|rows|ps|rows|xs]; cbn [shape_rejected].
  - tauto.
  - destruct xs; [congruence|]. intros _. cbn. tauto.
  - intros H. pose proof (comprehension_index1_raises rows H) as Hc.
    destruct rows; [inversion H|]. cbn [has_positive_len length Nat.eqb negb].
    destruct (comprehension index1 _); cbn [bind is_Ok] in *; tauto.
  - intros H. pose proof (comprehension_index1_raises rows H) as Hc.
    destruct rows; [inversion H|]. cbn [has_positive_len length Nat.eqb negb].
    destruct (comprehension index1 _); cbn [bind is_Ok] in *; tauto.
  - destruct ps; [congruence|]. intros _. cbn. tauto.
  - tauto.
  - destruct xs; [congruence|]. intros _. cbn. tauto.
Qed.

Lemma trained_predict_adapt (MODEL : model) (rand : list Q) (t : TrackData) :
  is_Ok (trained_predict MODEL rand t) <->
  exists p, call_predict_proba MODEL [features_of t] = Ok p /\ is_Ok (adapt rand p).
Proof.
  unfold trained_predict, adapt.
  destruct (call_predict_proba MODEL [features_of t]) as [p|e]; cbn [bind].
  - split.
    + intros H. exists p. split; [reflexivity|].
      destruct (resolve_shape rand p) as [s|e]; cbn [bind] in *; [|exact H].
      destruct (predictions_of_scores s); cbn [bind is_Ok] in *; exact H.
    + intros (p' & [= <-] & H).
      destruct (resolve_shape rand p) as [s|e]; cbn [bind] in *; [|exact H].
      destruct (predictions_of_scores s); cbn [bind is_Ok] in *; exact H.
  - split; [intros []|intros (p & [=] & _)].
Qed.

(** An output without a length, or of length zero, is not rejected: the
    scores are drawn at random and the response is tagged as the trained
    path's. *)
Lemma trained_predict_random (f : list (list Q) -> result proba)
    (rand : list Q) (t : TrackData) (p : proba) :
  f [features_of t] = Ok p -> has_positive_len p = false ->
  exists r, predict_genres (ModelLoaded f) rand t = Ok r /\
            model_version r = "SVM-v2.0"%string /\
            forall i genre, GENRE_LABELS !! i = Some genre ->
                            predictions r !! i = Some (genre, default 0.0 (rand !! i)).
Proof.
  intros Hf Hlen. unfold predict_genres, trained_predict, call_predict_proba.
  rewrite Hf. cbn [bind]. unfold resolve_shape. rewrite Hlen. cbn [bind].
  eexists. split; [reflexivity|]. split; [reflexivity|].
  intros i genre Hg. cbn [predictions].
  destruct (predictions_of_scores_lookup rand i genre Hg) as (d & [= <-] & Hd).
  exact Hd.
Qed.

(** C3, as the code has it: when the scorer raises, or returns a shape the
    adapter raises on, [predict_genres] answers what the heuristic path
    answers for the track, and a response of the heuristic path is tagged
    DEMO-MODE while one of the trained path is tagged SVM-v2.0.  An output
    without a length or of length zero is not a failure: its scores are drawn
    at random and the response is tagged SVM-v2.0. *)
Theorem C3_fallback_to_demo_predict :
  (forall (MODEL : model) (rand : list Q) (t : TrackData),
      (~ is_Ok (call_predict_proba MODEL [features_of t]) \/
       exists p, call_predict_proba MODEL [features_of t] = Ok p /\ shape_rejected p) ->
      predict_genres MODEL rand t = demo_predict t /\
      forall r, predict_genres MODEL rand t = Ok r -> model_version r = "DEMO-MODE"%string) /\
  (forall (MODEL : model) (rand : list Q) (t : TrackData) (r : PredictionResponse),
      trained_predict MODEL rand t = Ok r -> model_version r = "SVM-v2.0"%string) /\
  "DEMO-MODE"%string <> "SVM-v2.0"%string /\
  (forall (f : list (list Q) -> result proba) (rand : list Q) (t : TrackData) (p : proba),
      f [features_of t] = Ok p -> has_positive_len p = false ->
      exists r, predict_genres (ModelLoaded f) rand t = Ok r /\
                model_version r = "SVM-v2.0"%string /\
                forall i genre, GENRE_LABELS !! i = Some genre ->
                                predictions r !! i = Some (genre, default 0.0 (rand !! i))).
Proof.
  split; [|split; [|split]].
  - intros MODEL rand t H.
    assert (predict_genres MODEL rand t = demo_predict t) as E.
    { destruct (predict_genres_cases MODEL rand t) as [[_ Hok]|[E _]]; [|exact E].
      exfalso. apply trained_predict_adapt in Hok as (p & Hp & Hok).
      destruct H as [H|(p' & Hp' & Hrej)].
      - apply H. rewrite Hp. exact I.
      - rewrite Hp in Hp'. injection Hp' as <-. exact (adapt_rejects rand p Hrej Hok). }
    split; [exact E|]. intros r Hr. rewrite E in Hr.
    apply demo_predict_fields in Hr. tauto.
  - intros MODEL rand t r Hr. apply trained_predict_fields in Hr. tauto.
  - discriminate.
  - exact trained_predict_random.
Qed.

(** The model never loaded, the scorer that raises, and the multi-output
    shape all end on the heuristic path. *)
Lemma C3_witness :
  (predict_genres MODEL_initial [] example_track = demo_predict example_track /\
   forall r, predict_genres MODEL_initial [] example_track = Ok r ->
             model_version r = "DEMO-MODE"%string) /\
  (predict_genres (ModelLoaded (fun _ => Ok (ListOfRowArrays [[0.4; 0.6]; [0.7; 0.3]])))
                  [] example_track = demo_predict example_track /\
   forall r, predict_genres (ModelLoaded (fun _ => Ok (ListOfRowArrays [[0.4; 0.6]; [0.7; 0.3]])))
                            [] example_track = Ok r ->
             model_version r = "DEMO-MODE"%string).
Proof.
  split.
  - apply (proj1 C3_fallback_to_demo_predict MODEL_initial [] example_track).
    left. cbn. tauto.
  - apply (proj1 C3_fallback_to_demo_predict
             (ModelLoaded (fun _ => Ok (ListOfRowArrays [[0.4; 0.6]; [0.7; 0.3]])))
             [] example_track).
    right. eexists. split; [reflexivity|]. cbn. congruence.
Defined.

(** C3 fails as stated: a scorer that returns an empty list does not send
    the request to the heuristic path; the response carries the random draw
    under the tag of the trained path. *)
Lemma C3_counterexample :
  exists r,
    predict_genres (ModelLoaded (fun _ => Ok (ListOfLists []))) sample_draw example_track = Ok r /\
    model_version r = "SVM-v2.0"%string /\
    values (predictions r) = sample_draw /\
    predict_genres (ModelLoaded (fun _ => Ok (ListOfLists []))) sample_draw example_track
      <> demo_predict example_track.
Proof.
  eexists. split; [reflexivity|]. split; [reflexivity|]. split; [reflexivity|].
  intros H.
  apply (f_equal (fun x => match x with Ok r => model_version r | Raise _ => ""%string end)) in H.
  vm_compute in H. discriminate.
Qed.

Lemma comprehension_index1_returns (rows : list (list Q)) :
  ~ Exists (fun row => (length row < 2)%nat) rows -> is_Ok (comprehension index1 rows).
Proof.
  induction rows as [|row rows IH]; intros H; [exact I|].
  cbn [comprehension].
  destruct row as [|a [|b row]].
  - exfalso. apply H. left. cbn. lia.
  - exfalso. apply H. left. cbn. lia.
  - cbn [index1 lookup list_lookup bind].
    assert (is_Ok (comprehension index1 rows)) as Hok.
    { apply IH. intros Hex. apply H. right. exact Hex. }
    destruct (comprehension index1 rows); cbn [bind is_Ok] in *; tauto.
Qed.

(** Every other shape is answered on the trained path. *)
Lemma adapt_accepts (rand : list Q) (p : proba) :
  ~ shape_rejected p -> is_Ok (adapt rand p).
Proof.
  unfold adapt, resolve_shape.
  destruct p as [|xs|rows|rows|ps|rows|xs]; cbn [shape_rejected]; intros H.
  - exact I.
  - destruct xs; [exact I|]. exfalso. apply H. discriminate.
  - destruct rows as [|row rows]; [exact I|].
    cbn [has_positive_len length Nat.eqb negb].
    pose proof (comprehension_index1_returns _ H) as Hok.
    destruct (comprehension index1 (row :: rows)); cbn [bind is_Ok] in *; tauto.
  - destruct rows as [|row rows]; [exact I|].
    cbn [has_positive_len length Nat.eqb negb].
    pose proof (comprehension_index1_returns _ H) as Hok.
    destruct (comprehension index1 (row :: rows)); cbn [bind is_Ok] in *; tauto.
  - destruct ps; [exact I|]. exfalso. apply H. discriminate.
  - destruct rows; exact I.
  - destruct xs; [exact I|]. exfalso. apply H. discriminate.
Qed.

(** ** C8: the batch endpoint *)

Lemma answered_exists (MODEL : model) (tracks : list TrackData) :
  forall rand,
    (forall i t, tracks !! i = Some t -> is_Ok (predict_genres MODEL (rand i) t)) ->
    exists rs, answered MODEL rand tracks rs.
Proof.
  induction tracks as [|t ts IH]; intros rand H.
  - exists []. constructor.
  - pose proof (H 0%nat t eq_refl) as H0.
    destruct (predict_genres MODEL (rand 0%nat) t) as [r|e] eqn:Er; [|destruct H0].
    destruct (IH (fun i => rand (S i))) as (rs & Hrs).
    { intros i t' Hi. apply (H (S i) t'). exact Hi. }
    exists (r :: rs). constructor; assumption.
Qed.

Lemma answered_lookup (MODEL : model) rand tracks rs :
  answered MODEL rand tracks rs ->
  length rs = length tracks /\
  forall i t, tracks !! i = Some t ->
    exists r, rs !! i = Some r /\ predict_genres MODEL (rand i) t = Ok r.
Proof.
  induction 1 as [rand|rand t ts r rs Hr _ [IHlen IH]].
  - split; [reflexivity|]. intros i t Hi. destruct i; discriminate.
  - split; [cbn [length]; congruence|].
    intros [|i] t' Hi.
    + injection Hi as <-. exists r. split; [reflexivity | exact Hr].
    + apply (IH i t'). exact Hi.
Qed.

Lemma batch_loop_answered (MODEL : model) rand tracks rs :
  answered MODEL rand tracks rs ->
  forall predictions total_confidence,
    batch_loop MODEL rand tracks predictions total_confidence =
      Ok (predictions ++ rs, fold_left Qplus (map confidence rs) total_confidence).
Proof.
  induction 1 as [rand|rand t ts r rs Hr _ IH]; intros acc total.
  - cbn. rewrite app_nil_r. reflexivity.
  - cbn [batch_loop]. rewrite Hr. cbn [bind]. rewrite IH, <- app_assoc. reflexivity.
Qed.

(** A track in the declared ranges is always answered, whatever the scorer
    does. *)
Lemma predict_genres_returns (MODEL : model) (rand : list Q) (t : TrackData) :
  schema_valid t -> is_Ok (predict_genres MODEL rand t).
Proof.
  intros H. destruct (predict_genres_cases MODEL rand t) as [[-> Hok]|[-> _]];
    [exact Hok|].
  pose proof (base_probs_total_positive t H) as Hpos.
  destruct (demo_predict_returns t) as (r & -> & _); [lra | exact I].
Qed.

Lemma predict_genres_track (MODEL : model) (rand : list Q) (t : TrackData)
    (r : PredictionResponse) :
  predict_genres MODEL rand t = Ok r -> track r = track_name t.
Proof.
  intros H. destruct (predict_genres_cases MODEL rand t) as [[E _]|[E _]];
    rewrite E in H; revert H.
  - unfold trained_predict.
    destruct (call_predict_proba MODEL _) as [p|e]; cbn [bind]; [|discriminate].
    destruct (resolve_shape rand p) as [s|e]; cbn [bind]; [|discriminate].
    destruct (predictions_of_scores s) as [d|e]; cbn [bind]; [|discriminate].
    intros [= <-]. reflexivity.
  - unfold demo_predict.
    destruct (scale_by_total _ _) as [d|e]; cbn [bind]; [|discriminate].
    intros [= <-]. reflexivity.
Qed.

(** C8 fails on a batch holding a request whose ten raw scores sum to 0:
    with no model loaded the first track of the batch is answered, the
    second makes the demo path divide by zero, and the batch endpoint, whose
    loop has no handler, raises [ZeroDivisionError] instead of returning the
    per-track results; so does the batch of that request alone.  The defect
    is the division without guard of [demo_predict] (C6). *)
Theorem C8_batch_raises_on_zero_sum_track :
  sum (values (base_probs zero_sum_track)) == 0 /\
  (forall rand : list Q, exists r, predict_genres MODEL_initial rand example_track = Ok r) /\
  (forall rand : list Q,
     predict_genres MODEL_initial rand zero_sum_track = Raise ZeroDivisionError) /\
  (forall rand : nat -> list Q,
     predict_genres_batch MODEL_initial rand [example_track; zero_sum_track]
       = Raise ZeroDivisionError) /\
  (forall rand : nat -> list Q,
     predict_genres_batch MODEL_initial rand [zero_sum_track] = Raise ZeroDivisionError).
Proof.
  assert (sum (values (base_probs zero_sum_track)) == 0) as Hz by (vm_compute; reflexivity).
  assert (forall rand : list Q,
            predict_genres MODEL_initial rand zero_sum_track = Raise ZeroDivisionError) as Hr.
  { intros rand. cbn [predict_genres MODEL_initial try_except trained_predict
                      call_predict_proba bind].
    apply demo_predict_raises, Hz. }
  assert (forall rand : list Q,
            exists r, predict_genres MODEL_initial rand example_track = Ok r) as Hok.
  { intros rand. cbn [predict_genres MODEL_initial try_except trained_predict
                      call_predict_proba bind].
    destruct (demo_predict_returns example_track) as (r & Hd & _);
      [vm_compute; discriminate | exists r; exact Hd]. }
  split; [exact Hz|]. split; [exact Hok|]. split; [exact Hr|]. split.
  - intros rand. unfold predict_genres_batch. cbn [batch_loop].
    destruct (Hok (rand 0%nat)) as (r & ->). cbn [bind].
    rewrite Hr. reflexivity.
  - intros rand. unfold predict_genres_batch. cbn [batch_loop].
    rewrite Hr. reflexivity.
Qed.


(** * Further properties of the code *)

(** ** [calculate_confidence] *)

Lemma calculate_confidence_of_max (d : dict) (v : Q) (vs : list Q) :
  values d = v :: vs -> calculate_confidence d = confidence_of_max (max_from v vs).
Proof.
  intros H. unfold calculate_confidence. rewrite H. reflexivity.
Qed.

Lemma confidence_of_max_cases (m : Q) :
  (0.7 < m /\ confidence_of_max m = Qmin 1.0 (m * 1.1)) \/
  (0.3 < m /\ m <= 0.7 /\ confidence_of_max m = m) \/
  (m <= 0.3 /\ confidence_of_max m = m * 0.8).
Proof.
  unfold confidence_of_max.
  destruct (Qltb 0.7 m) eqn:E7.
  - apply Qltb_true in E7. left. split; [exact E7 | reflexivity].
  - apply Qltb_false in E7. destruct (Qltb 0.3 m) eqn:E3.
    + apply Qltb_true in E3. right. left. repeat split; assumption.
    + apply Qltb_false in E3. right. right. split; [exact E3 | reflexivity].
Qed.

Lemma Qmin_one_scaled (m : Q) :
  Qmin 1.0 (m * 1.1) <= 1.0 /\ Qmin 1.0 (m * 1.1) <= m * 1.1 /\
  (Qmin 1.0 (m * 1.1) == 1.0 \/ Qmin 1.0 (m * 1.1) == m * 1.1).
Proof.
  split; [apply Q.le_min_l|]. split; [apply Q.le_min_r|].
  destruct (Q.min_spec 1.0 (m * 1.1)) as [[_ H]|[_ H]]; [left|right]; exact H.
Qed.

Lemma confidence_of_max_monotone (m1 m2 : Q) :
  m1 <= m2 -> confidence_of_max m1 <= confidence_of_max m2.
Proof.
  intros Hle.
  destruct (confidence_of_max_cases m1) as [[H1 ->]|[(H1 & H1' & ->)|[H1 ->]]];
    destruct (confidence_of_max_cases m2) as [[H2 ->]|[(H2 & H2' & ->)|[H2 ->]]];
    try lra;
    pose proof (Qmin_one_scaled m1) as (A1 & B1 & C1);
    pose proof (Qmin_one_scaled m2) as (A2 & B2 & C2);
    destruct C1 as [C1|C1]; destruct C2 as [C2|C2]; lra.
Qed.

Lemma confidence_of_max_bounds (m : Q) :
  confidence_of_max m <= 1 /\
  (0 <= m -> 0 <= confidence_of_max m /\ confidence_of_max m <= m * 1.1) /\
  (0 <= m -> m <= 1 -> m * 0.8 <= confidence_of_max m).
Proof.
  pose proof (Qmin_one_scaled m) as (A & B & C).
  destruct (confidence_of_max_cases m) as [[H ->]|[(H & H' & ->)|[H ->]]].
  - split; [lra|]. split; intros; destruct C as [C|C]; lra.
  - split; [lra|]. split; intros; lra.
  - split; [lra|]. split; intros; lra.
Qed.

Lemma is_max_values_cons (m : Q) (d : dict) :
  is_max m (values d) -> exists v vs, values d = v :: vs /\ max_from v vs == m.
Proof.
  intros Hm. destruct (values d) as [|v vs] eqn:E.
  - destruct Hm as [Hex _]. inversion Hex.
  - exists v, vs. split; [reflexivity|].
    exact (is_max_unique _ _ _ (max_from_is_max v vs) Hm).
Qed.

(** X1: the confidence of [calculate_confidence] never decreases when the
    maximum probability grows, across the two thresholds as well; so two
    mappings with the same maximum get the same confidence, whatever their
    other values and their order. *)
Theorem X1_calculate_confidence_monotone (d1 d2 : dict) (m1 m2 : Q) :
  is_max m1 (values d1) -> is_max m2 (values d2) ->
  (m1 <= m2 -> calculate_confidence d1 <= calculate_confidence d2) /\
  (m1 == m2 -> calculate_confidence d1 == calculate_confidence d2).
Proof.
  intros H1 H2.
  destruct (is_max_values_cons m1 d1 H1) as (v1 & vs1 & E1 & M1).
  destruct (is_max_values_cons m2 d2 H2) as (v2 & vs2 & E2 & M2).
  rewrite (calculate_confidence_of_max d1 v1 vs1 E1).
  rewrite (calculate_confidence_of_max d2 v2 vs2 E2).
  split.
  - intros Hle. apply confidence_of_max_monotone. lra.
  - intros Heq. apply Qle_antisym; apply confidence_of_max_monotone; lra.
Qed.

Lemma X1_witness :
  (0.2 <= 0.9 ->
   calculate_confidence [("pop", 0.2); ("rock", 0.1)]%string
     <= calculate_confidence [("jazz", 0.4); ("folk", 0.9)]%string) /\
  (0.2 == 0.9 ->
   calculate_confidence [("pop", 0.2); ("rock", 0.1)]%string
     == calculate_confidence [("jazz", 0.4); ("folk", 0.9)]%string).
Proof.
  apply (X1_calculate_confidence_monotone
           [("pop", 0.2); ("rock", 0.1)]%string [("jazz", 0.4); ("folk", 0.9)]%string
           0.2 0.9).
  - split; [left; reflexivity|]. repeat constructor; vm_compute; congruence.
  - split; [right; left; reflexivity|]. repeat constructor; vm_compute; congruence.
Defined.

(** X2: [calculate_confidence] never exceeds 1; when the largest
    probability is not negative the confidence is not negative either and is
    at most 1.1 times that probability; when it lies in [0, 1] the confidence
    is at least 0.8 times it.  So probabilities in [0, 1] give the documented
    range 0..1. *)
Theorem X2_calculate_confidence_range (d : dict) :
  calculate_confidence d <= 1 /\
  (forall m, is_max m (values d) -> 0 <= m ->
     0 <= calculate_confidence d /\ calculate_confidence d <= m * 1.1 /\
     (m <= 1 -> m * 0.8 <= calculate_confidence d)).
Proof.
  split.
  - unfold calculate_confidence. destruct (values d) as [|v vs]; [lra|].
    apply (confidence_of_max_bounds (max_from v vs)).
  - intros m Hm Hpos. destruct (is_max_values_cons m d Hm) as (v & vs & E & M).
    rewrite (calculate_confidence_of_max d v vs E).
    destruct (confidence_of_max_bounds (max_from v vs)) as (_ & Hb & Hc).
    destruct Hb as [Hlo Hhi]; [lra|]. split; [lra|]. split; [lra|].
    intros H1. specialize (Hc ltac:(lra) ltac:(lra)). lra.
Qed.

(** ** [normalize_predictions] *)

Lemma normalize_predictions_keys (d : dict) : keys (normalize_predictions d) = keys d.
Proof.
  unfold normalize_predictions. destruct (Qltb 0 (sum (values d))); [|reflexivity].
  apply (keys_map_values (fun x => x / sum (values d))).
Qed.

Lemma divided_scores_bounds (base : list Q) :
  Forall (fun x => 0 <= x) base -> 0 < sum base ->
  Forall (fun p => 0 <= p /\ p <= 1) (map (fun x => x / sum base) base).
Proof.
  intros Hnn Hpos. apply List.Forall_forall. intros p Hp.
  apply in_map_iff in Hp as (x & <- & Hx).
  pose proof (sum_bounds_member base x Hnn Hx) as Hle.
  rewrite List.Forall_forall in Hnn. specialize (Hnn x Hx).
  split; [apply Qle_shift_div_l; lra | apply Qle_shift_div_r; lra].
Qed.

(** X3: [normalize_predictions] keeps the keys and their order; applied to
    scores none of which is negative and whose sum is positive, it returns
    values in [0, 1] that sum to 1. *)
Theorem X3_normalize_predictions_distribution (d : dict) :
  Forall (fun x => 0 <= x) (values d) -> 0 < sum (values d) ->
  keys (normalize_predictions d) = keys d /\
  sum (values (normalize_predictions d)) == 1 /\
  Forall (fun p => 0 <= p /\ p <= 1) (values (normalize_predictions d)).
Proof.
  intros Hnn Hpos. split; [apply normalize_predictions_keys|].
  destruct (normalize_predictions_positive d Hpos) as [E Hsum].
  split; [exact Hsum|]. rewrite E.
  rewrite (values_map_values (fun x => x / sum (values d))).
  apply divided_scores_bounds; assumption.
Qed.

Lemma X3_witness :
  keys (normalize_predictions [("pop", 3); ("rock", 1); ("jazz", 0)]%string)
    = keys [("pop", 3); ("rock", 1); ("jazz", 0)]%string /\
  sum (values (normalize_predictions [("pop", 3); ("rock", 1); ("jazz", 0)]%string)) == 1 /\
  Forall (fun p => 0 <= p /\ p <= 1)
         (values (normalize_predictions [("pop", 3); ("rock", 1); ("jazz", 0)]%string)).
Proof.
  apply (X3_normalize_predictions_distribution [("pop", 3); ("rock", 1); ("jazz", 0)]%string).
  - repeat constructor; vm_compute; congruence.
  - vm_compute. reflexivity.
Defined.

Lemma values_scale_values (c : Q) (d : dict) :
  values (scale_values c d) = map (fun x => x * c) (values d).
Proof. apply (values_map_values (fun x => x * c)). Qed.

Lemma sum_scale_values (c : Q) (d : dict) :
  sum (values (scale_values c d)) == sum (values d) * c.
Proof.
  rewrite values_scale_values. apply sum_map_linear. intros x. reflexivity.
Qed.

Lemma dict_equiv_rescaled (c total total' : Q) (d : dict) :
  0 < c -> 0 < total -> total' == total * c ->
  dict_equiv (map (fun gp => (fst gp, snd gp / total')) (scale_values c d))
             (map (fun gp => (fst gp, snd gp / total)) d).
Proof.
  intros Hc Ht Ht'. unfold scale_values.
  induction d as [|gp d IH]; constructor; [|exact IH].
  split; [reflexivity|]. cbn [fst snd]. rewrite Ht'. field. lra.
Qed.

(** X4: [normalize_predictions] does not depend on the scale of its scores:
    multiplying every score by the same positive number leaves the result
    unchanged, when the scores have a positive sum. *)
Theorem X4_normalize_predictions_scale_invariant (c : Q) (d : dict) :
  0 < c -> 0 < sum (values d) ->
  dict_equiv (normalize_predictions (scale_values c d)) (normalize_predictions d).
Proof.
  intros Hc Hpos.
  pose proof (sum_scale_values c d) as Hs.
  assert (0 < sum (values (scale_values c d))) as Hpos' by (rewrite Hs; nra).
  destruct (normalize_predictions_positive d Hpos) as [-> _].
  destruct (normalize_predictions_positive _ Hpos') as [-> _].
  apply dict_equiv_rescaled; assumption.
Qed.

Lemma X4_witness :
  dict_equiv (normalize_predictions (scale_values 4 [("pop", 3); ("rock", 1)]%string))
             (normalize_predictions [("pop", 3); ("rock", 1)]%string).
Proof.
  apply (X4_normalize_predictions_scale_invariant 4 [("pop", 3); ("rock", 1)]%string);
    vm_compute; reflexivity.
Defined.

(** ** At most one genre above one half *)

Lemma inject_Z_of_nat_S (n : nat) :
  inject_Z (Z.of_nat (S n)) == inject_Z (Z.of_nat n) + 1.
Proof.
  rewrite Nat2Z.inj_succ. unfold Z.succ. rewrite inject_Z_plus. reflexivity.
Qed.

Lemma inject_Z_of_nat_nonneg (n : nat) : 0 <= inject_Z (Z.of_nat n).
Proof.
  change 0 with (inject_Z 0). rewrite <- Zle_Qle. apply Nat2Z.is_nonneg.
Qed.

(** Each selected genre accounts for more than one half of the sum. *)
Lemma select_top_genres_mass (d : dict) :
  Forall (fun x => 0 <= x) (values d) ->
  inject_Z (Z.of_nat (length (select_top_genres d))) * 0.5 <= sum (values d) /\
  (select_top_genres d <> [] ->
   inject_Z (Z.of_nat (length (select_top_genres d))) * 0.5 < sum (values d)).
Proof.
  unfold select_top_genres, values.
  induction d as [|gp d IH]; intros Hnn.
  - split; [rewrite sum_nil; cbn; lra | intros H; exfalso; apply H; reflexivity].
  - cbn [map] in Hnn. apply Forall_cons_1 in Hnn as [Hgp Hnn].
    destruct (IH Hnn) as [IHle IHlt]. cbn [map List.filter]. rewrite sum_cons.
    destruct (Qltb 0.5 (snd gp)) eqn:E.
    + apply Qltb_true in E. cbn [map length]. rewrite inject_Z_of_nat_S.
      split; [lra|]. intros _. lra.
    + split; [lra|]. intros Hne. specialize (IHlt Hne). lra.
Qed.

Lemma select_top_genres_at_most_one (d : dict) :
  Forall (fun x => 0 <= x) (values d) -> sum (values d) <= 1 ->
  (length (select_top_genres d) <= 1)%nat.
Proof.
  intros Hnn Hsum. destruct (select_top_genres_mass d Hnn) as [_ Hlt].
  destruct (select_top_genres d) as [|g1 [|g2 gs]]; cbn [length]; try lia.
  exfalso. specialize (Hlt ltac:(discriminate)).
  cbn [length] in Hlt. rewrite !inject_Z_of_nat_S in Hlt.
  pose proof (inject_Z_of_nat_nonneg (length gs)). lra.
Qed.

Lemma scaled_base_probs_nonneg (t : TrackData) :
  schema_valid t ->
  Forall (fun x => 0 <= x)
    (values (map (fun gp => (fst gp, snd gp / sum (values (base_probs t)) * 0.8))
                 (base_probs t))).
Proof.
  intros H. destruct (scaled_base_probs_mass t H) as [_ Hb].
  eapply Forall_impl; [exact Hb|]. intros p [Hp _]. exact Hp.
Qed.

(** X5: on the demo path a request in the declared ranges gets at most one
    top genre: the ten probabilities are not negative and sum to 0.8, so two
    of them cannot both exceed 0.5.  The same holds of any mapping that
    [normalize_predictions] made out of non-negative scores. *)
Theorem X5_at_most_one_top_genre :
  (forall t : TrackData, schema_valid t ->
     exists r, demo_predict t = Ok r /\ (length (top_genres r) <= 1)%nat) /\
  (forall d : dict, Forall (fun x => 0 <= x) (values d) -> 0 < sum (values d) ->
     (length (select_top_genres (normalize_predictions d)) <= 1)%nat).
Proof.
  split.
  - intros t H. pose proof (base_probs_total_positive t H) as Hpos.
    destruct (demo_predict_returns t) as (r & Hr & Hp); [lra|].
    exists r. split; [exact Hr|].
    destruct (demo_predict_fields t r Hr) as (-> & _). rewrite Hp.
    apply select_top_genres_at_most_one.
    + apply scaled_base_probs_nonneg, H.
    + destruct (scaled_base_probs_mass t H) as [Hs _]. lra.
  - intros d Hnn Hpos.
    destruct (normalize_predictions_positive d Hpos) as [E Hsum].
    apply select_top_genres_at_most_one; [|lra].
    rewrite E, (values_map_values (fun x => x / sum (values d))).
    eapply Forall_impl; [apply divided_scores_bounds; assumption|].
    intros p [Hp _]. exact Hp.
Qed.

Lemma X5_witness :
  (exists r, demo_predict second_track = Ok r /\ (length (top_genres r) <= 1)%nat) /\
  (length (select_top_genres (normalize_predictions [("pop", 3%Q); ("rock", 1%Q)]%string))
   <= 1)%nat.
Proof.
  split.
  - apply (proj1 X5_at_most_one_top_genre second_track).
    constructor; split; vm_compute; congruence.
  - apply (proj2 X5_at_most_one_top_genre [("pop", 3); ("rock", 1)]%string).
    + repeat constructor; vm_compute; congruence.
    + vm_compute. reflexivity.
Defined.

(** ** [generate_mock_predictions] *)

Lemma generate_mock_predictions_keys (features : gmap string Q) :
  keys (generate_mock_predictions features) = GENRE_LABELS.
Proof.
  unfold generate_mock_predictions.
  destruct (Qltb 0 (sum (values (mock_base_probs features)))); reflexivity.
Qed.

Lemma generate_mock_predictions_sum (features : gmap string Q) :
  sum (values (generate_mock_predictions features)) == 0.8.
Proof.
  destruct (Qlt_le_dec 0 (sum (values (mock_base_probs features)))) as [Hpos|Hle].
  - rewrite (generate_mock_predictions_positive features Hpos).
    rewrite (values_map_values (fun x => x / sum (values (mock_base_probs features)) * 0.8)).
    apply scaled_scores_sum; [reflexivity | lra].
  - rewrite (generate_mock_predictions_nonpositive features Hle). vm_compute. reflexivity.
Qed.

(** X7: whatever the feature dictionary holds, [generate_mock_predictions]
    returns the ten genres in the order of the labels with values that sum
    to 0.8; so [normalize_predictions] always turns its result into values
    that sum to 1. *)
Theorem X7_generate_mock_predictions_mass (features : gmap string Q) :
  keys (generate_mock_predictions features) = GENRE_LABELS /\
  sum (values (generate_mock_predictions features)) == 0.8 /\
  keys (normalize_predictions (generate_mock_predictions features)) = GENRE_LABELS /\
  sum (values (normalize_predictions (generate_mock_predictions features))) == 1.
Proof.
  pose proof (generate_mock_predictions_sum features) as Hs.
  split; [apply generate_mock_predictions_keys|]. split; [exact Hs|].
  split.
  - rewrite normalize_predictions_keys. apply generate_mock_predictions_keys.
  - apply normalize_predictions_positive. lra.
Qed.

(** ** The feature dictionary and a request *)

Lemma mock_base_probs_features_dict (t : TrackData) :
  mock_base_probs (features_dict t) = base_probs t.
Proof. reflexivity. Qed.

(** X8: when the ten raw scores of a request have a positive sum, the demo
    path of [main.py] and [generate_mock_predictions] of [utils.py], given
    the same features, produce the same probabilities. *)
Theorem X8_demo_predict_agrees_with_mock (t : TrackData) :
  0 < sum (values (base_probs t)) ->
  exists r, demo_predict t = Ok r /\
            predictions r = generate_mock_predictions (features_dict t).
Proof.
  intros Hpos. destruct (demo_predict_returns t) as (r & Hr & Hp); [lra|].
  exists r. split; [exact Hr|]. rewrite Hp.
  rewrite generate_mock_predictions_positive;
    rewrite mock_base_probs_features_dict; [reflexivity | exact Hpos].
Qed.

Lemma X8_witness :
  exists r, demo_predict example_track = Ok r /\
            predictions r = generate_mock_predictions (features_dict example_track).
Proof.
  apply (X8_demo_predict_agrees_with_mock example_track). vm_compute. reflexivity.
Defined.

(** X9: [preprocess_audio_features] on the features of a request builds the
    one-row matrix that [predict_genres] hands to the scorer, the ten features
    in the same order; on any dictionary its result has one row of ten
    numbers. *)
Theorem X9_preprocess_matches_predict_genres :
  (forall t : TrackData, preprocess_audio_features (features_dict t) = [features_of t]) /\
  (forall features : gmap string Q,
     exists row, preprocess_audio_features features = [row] /\ length row = 10%nat).
Proof.
  split.
  - intros t. reflexivity.
  - intros features. eexists. split; reflexivity.
Qed.

Lemma get_insert_ne (features : gmap string Q) (k k' : string) (v dflt : Q) :
  k <> k' -> get (<[k:=v]> features) k' dflt = get features k' dflt.
Proof.
  intros Hne. unfold get. rewrite lookup_insert_ne by exact Hne. reflexivity.
Qed.

Lemma get_insert_default (features : gmap string Q) (k : string) (dflt : Q) :
  features !! k = None -> get (<[k:=dflt]> features) k dflt = get features k dflt.
Proof.
  intros Hk. unfold get. rewrite lookup_insert_eq, Hk. reflexivity.
Qed.

(** X10: the entries of a feature dictionary under any other key than the
    ten feature names are ignored by [preprocess_audio_features] and by
    [generate_mock_predictions]. *)
Theorem X10_unknown_keys_ignored (features : gmap string Q) (k : string) (v : Q) :
  ~ In k feature_names ->
  preprocess_audio_features (<[k:=v]> features) = preprocess_audio_features features /\
  generate_mock_predictions (<[k:=v]> features) = generate_mock_predictions features.
Proof.
  intros Hk.
  assert (forall k' dflt, In k' feature_names ->
            get (<[k:=v]> features) k' dflt = get features k' dflt) as Hget.
  { intros k' dflt Hin. apply get_insert_ne. intros ->. contradiction. }
  split.
  - unfold preprocess_audio_features.
    rewrite !Hget by (cbn; tauto). reflexivity.
  - unfold generate_mock_predictions, mock_base_probs.
    rewrite !Hget by (cbn; tauto). reflexivity.
Qed.

Lemma X10_witness :
  preprocess_audio_features (<["key":=7]> example_features)
    = preprocess_audio_features example_features /\
  generate_mock_predictions (<["key":=7]> example_features)
    = generate_mock_predictions example_features.
Proof.
  apply (X10_unknown_keys_ignored example_features "key" 7).
  cbn. intros H. repeat (destruct H as [H|H]; [discriminate H|]). exact H.
Defined.

Lemma feature_defaults_functional (k : string) (d d' : Q) :
  In (k, d) feature_defaults -> In (k, d') feature_defaults -> d = d'.
Proof.
  unfold feature_defaults. cbn [In]. intros H H'.
  repeat (destruct H as [H|H]; [injection H as <- <-|]); try contradiction;
    repeat (destruct H' as [H'|H']; [try discriminate H'; injection H' as <-; reflexivity|]);
    contradiction.
Qed.

(** X11: a feature missing from the dictionary is read as its default:
    [preprocess_audio_features] returns the same matrix when the missing
    feature is supplied with the default value of the code. *)
Theorem X11_missing_feature_is_default (features : gmap string Q) (k : string) (d : Q) :
  In (k, d) feature_defaults -> features !! k = None ->
  preprocess_audio_features (<[k:=d]> features) = preprocess_audio_features features.
Proof.
  intros Hin Hk.
  assert (forall k' d', In (k', d') feature_defaults ->
            get (<[k:=d]> features) k' d' = get features k' d') as Hget.
  { intros k' d' Hin'. destruct (decide (k = k')) as [<-|Hne].
    - rewrite (feature_defaults_functional k d' d Hin' Hin).
      apply get_insert_default, Hk.
    - apply get_insert_ne, Hne. }
  unfold preprocess_audio_features.
  rewrite !Hget by (unfold feature_defaults; cbn [In]; tauto). reflexivity.
Qed.

Lemma X11_witness :
  preprocess_audio_features (<["tempo":=120.0]> (features_dict_without_tempo))
    = preprocess_audio_features features_dict_without_tempo.
Proof.
  apply (X11_missing_feature_is_default features_dict_without_tempo "tempo" 120.0).
  - unfold feature_defaults. cbn [In]. tauto.
  - reflexivity.
Defined.

(** ** [validate_audio_features] *)

Lemma feature_ok_true (k : string) (v : Q) :
  feature_ok (k, v) = true <->
  forall lo hi, valid_ranges !! k = Some (lo, hi) -> in_range lo hi v.
Proof.
  unfold feature_ok, in_range. cbn [fst snd].
  destruct (valid_ranges !! k) as [[lo hi]|].
  - rewrite andb_true_iff, !Qle_bool_iff. split.
    + intros H lo' hi' [= <- <-]. exact H.
    + intros H. apply (H lo hi eq_refl).
  - split; [intros _ lo hi [=] | reflexivity].
Qed.

Lemma validate_audio_features_true (features : gmap string Q) :
  validate_audio_features features = true <->
  forall k v, features !! k = Some v -> feature_ok (k, v) = true.
Proof.
  unfold validate_audio_features. rewrite forallb_forall. split.
  - intros H k v Hk. apply H, list_elem_of_In, elem_of_map_to_list, Hk.
  - intros H [k v] Hin. apply H, elem_of_map_to_list, list_elem_of_In, Hin.
Qed.

(** X12: [validate_audio_features] answers [True] exactly when every entry
    whose key is in the table of ranges has its value inside the closed
    range of that key; entries under other keys never make it fail, and the
    empty dictionary is valid. *)
Theorem X12_validate_audio_features_all_or_nothing (features : gmap string Q) :
  (validate_audio_features features = true <->
   forall k v lo hi, features !! k = Some v -> valid_ranges !! k = Some (lo, hi) ->
                     lo <= v /\ v <= hi) /\
  validate_audio_features ∅ = true.
Proof.
  split; [|reflexivity].
  rewrite validate_audio_features_true. split.
  - intros H k v lo hi Hk Hr. exact (proj1 (feature_ok_true k v) (H k v Hk) lo hi Hr).
  - intros H k v Hk. apply feature_ok_true. intros lo hi Hr. exact (H k v lo hi Hk Hr).
Qed.

Lemma validate_audio_features_insert (features : gmap string Q) (k : string) (v : Q) :
  validate_audio_features (<[k:=v]> features) =
    feature_ok (k, v) && validate_audio_features (delete k features).
Proof.
  apply Bool.eq_true_iff_eq.
  rewrite andb_true_iff, !validate_audio_features_true. split.
  - intros H. split.
    + apply (H k v). apply lookup_insert_eq.
    + intros k' v' Hk'. apply lookup_delete_Some in Hk' as [Hne Hk'].
      apply (H k' v'). rewrite lookup_insert_ne by exact Hne. exact Hk'.
  - intros [Hok H] k' v' Hk'. apply lookup_insert_Some in Hk' as [[<- <-]|[Hne Hk']].
    + exact Hok.
    + apply (H k' v'). apply lookup_delete_Some. split; assumption.
Qed.

Lemma validate_audio_features_delete_unknown (features : gmap string Q) (k : string) :
  valid_ranges !! k = None ->
  validate_audio_features (delete k features) = validate_audio_features features.
Proof.
  intros Hk. apply Bool.eq_true_iff_eq. rewrite !validate_audio_features_true. split.
  - intros H k' v' Hk'. destruct (decide (k = k')) as [<-|Hne].
    + unfold feature_ok. cbn [fst]. rewrite Hk. reflexivity.
    + apply (H k' v'). apply lookup_delete_Some. split; assumption.
  - intros H k' v' Hk'. apply lookup_delete_Some in Hk' as [_ Hk']. exact (H k' v' Hk').
Qed.

(** X13: setting one entry of a feature dictionary: the result is valid
    exactly when the new entry is acceptable and the other entries are
    valid; so an out-of-range value under a known key invalidates any
    dictionary, and an entry under an unknown key changes nothing. *)
Theorem X13_validate_audio_features_insert (features : gmap string Q) (k : string) (v : Q) :
  validate_audio_features (<[k:=v]> features) =
    feature_ok (k, v) && validate_audio_features (delete k features) /\
  (forall lo hi, valid_ranges !! k = Some (lo, hi) -> ~ (lo <= v /\ v <= hi) ->
     validate_audio_features (<[k:=v]> features) = false) /\
  (valid_ranges !! k = None ->
     validate_audio_features (<[k:=v]> features) = validate_audio_features features).
Proof.
  pose proof (validate_audio_features_insert features k v) as E.
  split; [exact E|]. split.
  - intros lo hi Hr Hout. rewrite E.
    destruct (feature_ok (k, v)) eqn:Eok; [|reflexivity].
    exfalso. apply Hout. exact (proj1 (feature_ok_true k v) Eok lo hi Hr).
  - intros Hr. rewrite E, (validate_audio_features_delete_unknown features k Hr).
    unfold feature_ok. cbn [fst]. rewrite Hr. reflexivity.
Qed.

Lemma features_dict_lookup (t : TrackData) (k : string) (v : Q) :
  features_dict t !! k = Some v ->
  In (k, v)
     [ ("danceability", danceability t); ("energy", energy t); ("loudness", loudness t);
       ("speechiness", speechiness t); ("acousticness", acousticness t);
       ("instrumentalness", instrumentalness t); ("liveness", liveness t);
       ("valence", valence t); ("tempo", tempo t); ("popularity", popularity t) ]%string.
Proof.
  intros H. apply list_elem_of_In. unfold features_dict in H.
  apply elem_of_list_to_map_2 in H. exact H.
Qed.

(** X14: the bounds of [schemas.py] and the table of
    [validate_audio_features] agree: a request satisfies the declared field
    bounds exactly when the dictionary of its ten features is valid. *)
Theorem X14_schema_bounds_agree_with_valid_ranges (t : TrackData) :
  schema_valid t <-> validate_audio_features (features_dict t) = true.
Proof.
  split.
  - intros H. split_ranges H. apply validate_audio_features_true.
    intros k v Hk. apply features_dict_lookup in Hk. cbn [In] in Hk.
    repeat (destruct Hk as [Hk|Hk];
            [injection Hk as <- <-; unfold feature_ok; cbn [fst snd];
             match goal with
             | |- match valid_ranges !! ?key with _ => _ end = true =>
                 let r := eval vm_compute in (valid_ranges !! key) in
                 change (valid_ranges !! key) with r
             end;
             apply andb_true_iff; split; apply Qle_bool_iff; assumption|]).
    contradiction.
  - intros H.
    pose proof (fun key value lo hi =>
                  validate_audio_features_lookup (features_dict t) key value lo hi H) as Hin.
    constructor.
    + apply (Hin "danceability"%string); reflexivity.
    + apply (Hin "energy"%string); reflexivity.
    + apply (Hin "loudness"%string); reflexivity.
    + apply (Hin "speechiness"%string); reflexivity.
    + apply (Hin "acousticness"%string); reflexivity.
    + apply (Hin "instrumentalness"%string); reflexivity.
    + apply (Hin "liveness"%string); reflexivity.
    + apply (Hin "valence"%string); reflexivity.
    + apply (Hin "tempo"%string); reflexivity.
    + apply (Hin "popularity"%string); reflexivity.
Qed.

(** ** The responses of [predict_genres] *)

Lemma predict_genres_artists (MODEL : model) (rand : list Q) (t : TrackData)
    (r : PredictionResponse) :
  predict_genres MODEL rand t = Ok r -> resp_artists r = artists t.
Proof.
  intros H. destruct (predict_genres_cases MODEL rand t) as [[E _]|[E _]];
    rewrite E in H; revert H.
  - unfold trained_predict.
    destruct (call_predict_proba MODEL _) as [p|e]; cbn [bind]; [|discriminate].
    destruct (resolve_shape rand p) as [s|e]; cbn [bind]; [|discriminate].
    destruct (predictions_of_scores s) as [d|e]; cbn [bind]; [|discriminate].
    intros [= <-]. reflexivity.
  - unfold demo_predict.
    destruct (scale_by_total _ _) as [d|e]; cbn [bind]; [|discriminate].
    intros [= <-]. reflexivity.
Qed.

Lemma predict_genres_version (MODEL : model) (rand : list Q) (t : TrackData)
    (r : PredictionResponse) :
  predict_genres MODEL rand t = Ok r ->
  model_version r = "SVM-v2.0"%string \/ model_version r = "DEMO-MODE"%string.
Proof.
  intros H. destruct (predict_genres_cases MODEL rand t) as [[E _]|[E _]];
    rewrite E in H.
  - left. apply trained_predict_fields in H. tauto.
  - right. apply demo_predict_fields in H. tauto.
Qed.

(** X15: every response of [predict_genres], on either path, names the
    track and the artists of the request, carries one probability for each
    of the ten genre labels, in the order of the labels, lists its top genres
    in that order too, and is tagged SVM-v2.0 or DEMO-MODE. *)
Theorem X15_predict_genres_response_shape (MODEL : model) (rand : list Q)
    (t : TrackData) (r : PredictionResponse) :
  predict_genres MODEL rand t = Ok r ->
  track r = track_name t /\
  resp_artists r = artists t /\
  keys (predictions r) = GENRE_LABELS /\
  sublist (top_genres r) GENRE_LABELS /\
  (model_version r = "SVM-v2.0"%string \/ model_version r = "DEMO-MODE"%string).
Proof.
  intros H. destruct (predict_genres_fields MODEL rand t r H) as (Ht & _ & Hk).
  split; [eapply predict_genres_track, H|].
  split; [eapply predict_genres_artists, H|].
  split; [exact Hk|].
  split; [|eapply predict_genres_version, H].
  rewrite Ht, <- Hk. apply select_top_genres_sublist.
Qed.

Lemma X15_witness :
  exists r, predict_genres (rows_model peaked_row) [] example_track = Ok r /\
    track r = track_name example_track /\
    resp_artists r = artists example_track /\
    keys (predictions r) = GENRE_LABELS /\
    sublist (top_genres r) GENRE_LABELS /\
    (model_version r = "SVM-v2.0"%string \/ model_version r = "DEMO-MODE"%string).
Proof.
  eexists. split; [reflexivity|].
  apply (X15_predict_genres_response_shape (rows_model peaked_row) [] example_track).
  reflexivity.
Defined.

(** X16: a request in the declared ranges is always answered: whatever the
    state of the model and whatever the scorer returns or raises,
    [predict_genres] returns a response and raises nothing. *)
Theorem X16_predict_genres_answers_valid_requests (MODEL : model) (rand : list Q)
    (t : TrackData) :
  schema_valid t -> exists r, predict_genres MODEL rand t = Ok r.
Proof.
  intros H. pose proof (predict_genres_returns MODEL rand t H) as Hok.
  destruct (predict_genres MODEL rand t) as [r|e]; [exists r; reflexivity | destruct Hok].
Qed.

Lemma X16_witness :
  exists r, predict_genres (ModelLoaded (fun _ => Raise (ScorerError "boom"))) []
                           example_track = Ok r.
Proof.
  apply (X16_predict_genres_answers_valid_requests
           (ModelLoaded (fun _ => Raise (ScorerError "boom"))) [] example_track).
  exact example_track_valid.
Defined.

Lemma predict_genres_not_loaded (MODEL : model) (rand : list Q) (t : TrackData) :
  not_loaded MODEL -> predict_genres MODEL rand t = demo_predict t.
Proof.
  destruct MODEL as [|path|f]; cbn [not_loaded]; intros H; [reflexivity|reflexivity|destruct H].
Qed.

(** ** Start-up, health and metrics *)

Lemma startup_event_model (model_file : file (list (list Q) -> result proba))
    (scaler_file : file unit) (g : globals) :
  g_MODEL (startup_event model_file scaler_file g) =
    match model_file with
    | Present (Ok predict_proba) => ModelLoaded predict_proba
    | _ => g_MODEL g
    end.
Proof.
  unfold startup_event.
  destruct model_file as [|[f|e]]; destruct scaler_file as [|[u|e']]; reflexivity.
Qed.

(** X17: after [startup_event], the model is the unpickled classifier when
    the model file exists and loads, and the initial path string otherwise;
    [MODEL] is never [None], so [health_check] reports [model_loaded] and
    [get_model_metrics] reports no demo mode in both cases, even though
    without a loaded model every prediction is the demo path's. *)
Theorem X17_startup_health_and_metrics
    (model_file : file (list (list Q) -> result proba)) (scaler_file : file unit) :
  let g := startup_event model_file scaler_file globals_initial in
  model_loaded (health_check g) = true /\
  demo_mode (get_model_metrics g) = false /\
  genres_supported (get_model_metrics g) = length get_available_genres /\
  ((forall predict_proba, model_file <> Present (Ok predict_proba)) ->
   g_MODEL g = MODEL_initial /\
   forall rand t, predict_genres (g_MODEL g) rand t = demo_predict t).
Proof.
  cbv zeta. unfold health_check, get_model_metrics.
  cbn [model_loaded demo_mode genres_supported].
  rewrite startup_event_model.
  destruct model_file as [|[f|e]]; cbn [globals_initial g_MODEL is_None negb MODEL_initial];
    (split; [reflexivity|]); (split; [reflexivity|]); (split; [reflexivity|]).
  - intros _. split; [reflexivity|]. intros rand t. reflexivity.
  - intros H. exfalso. apply (H f). reflexivity.
  - intros _. split; [reflexivity|]. intros rand t. reflexivity.
Qed.

(** ** The trained path *)

(** X18: [predict_genres] answers under the tag SVM-v2.0 exactly when the
    model returns an output and the adapter does not raise on its shape; a
    flat sequence of numbers, per-class arrays of one row and arrays without
    an entry at index 1 are the shapes on which it raises. *)
Theorem X18_trained_path_answers_iff (MODEL : model) (rand : list Q) (t : TrackData) :
  (exists r, predict_genres MODEL rand t = Ok r /\ model_version r = "SVM-v2.0"%string) <->
  (exists p, call_predict_proba MODEL [features_of t] = Ok p /\ ~ shape_rejected p).
Proof.
  split.
  - intros (r & Hr & Hv).
    destruct (predict_genres_cases MODEL rand t) as [[_ Hok]|[E _]].
    + apply trained_predict_adapt in Hok as (p & Hp & Hok).
      exists p. split; [exact Hp|]. intros Hrej. exact (adapt_rejects rand p Hrej Hok).
    + rewrite E in Hr. apply demo_predict_fields in Hr as (_ & _ & Hd & _).
      rewrite Hd in Hv. discriminate.
  - intros (p & Hp & Hacc).
    assert (is_Ok (trained_predict MODEL rand t)) as Hok.
    { apply trained_predict_adapt. exists p. split; [exact Hp|].
      apply adapt_accepts, Hacc. }
    destruct (predict_genres_cases MODEL rand t) as [[E _]|[_ Hno]]; [|contradiction].
    destruct (trained_predict MODEL rand t) as [r|e] eqn:Er; [|destruct Hok].
    exists r. split; [exact E|]. apply trained_predict_fields in Er. tauto.
Qed.

(** X19: when the scorer returns a list of rows that are lists, the first
    row is read by position: the genre at position [i] gets the entry [i] of
    the row, and 0.0 when the row is too short; the other rows are ignored. *)
Theorem X19_list_of_rows_read_by_position (f : list (list Q) -> result proba)
    (rand : list Q) (t : TrackData) (row : list Q) (rest : list (list Q)) :
  f [features_of t] = Ok (ListOfLists (row :: rest)) ->
  exists r, predict_genres (ModelLoaded f) rand t = Ok r /\
            model_version r = "SVM-v2.0"%string /\
            (forall i genre, GENRE_LABELS !! i = Some genre ->
               predictions r !! i = Some (genre, default 0.0 (row !! i))) /\
            (forall i genre, GENRE_LABELS !! i = Some genre -> (length row <= i)%nat ->
               predictions r !! i = Some (genre, 0.0)).
Proof.
  intros Hf.
  destruct (trained_predict_list_of_lists f rand t row rest Hf) as (r & Hr & Hv & Hp).
  exists r. split; [exact Hr|]. split; [exact Hv|]. split; [exact Hp|].
  intros i genre Hg Hlen. rewrite (Hp i genre Hg).
  rewrite (lookup_ge_None_2 row i) by lia. reflexivity.
Qed.

Lemma X19_witness :
  exists r, predict_genres (rows_model short_row) [] example_track = Ok r /\
            model_version r = "SVM-v2.0"%string /\
            (forall i genre, GENRE_LABELS !! i = Some genre ->
               predictions r !! i = Some (genre, default 0.0 (short_row !! i))) /\
            (forall i genre, GENRE_LABELS !! i = Some genre -> (length short_row <= i)%nat ->
               predictions r !! i = Some (genre, 0.0)).
Proof.
  apply (X19_list_of_rows_read_by_position (fun _ => Ok (ListOfLists [short_row]))
           [] example_track short_row []).
  reflexivity.
Defined.

(** X20: when the scorer returns one 1-D array per class, each holding the
    pair of the negative-class and the positive-class probability, the genre
    at position [i] gets the positive-class entry of the pair [i], and 0.0
    when there are fewer pairs. *)
Theorem X20_pairs_give_positive_class (f : list (list Q) -> result proba)
    (rand : list Q) (t : TrackData) (pair : Q * Q) (pairs : list (Q * Q)) :
  f [features_of t] = Ok (ListOfArrays1 (map (fun np => [fst np; snd np]) (pair :: pairs))) ->
  exists r, predict_genres (ModelLoaded f) rand t = Ok r /\
            model_version r = "SVM-v2.0"%string /\
            forall i genre, GENRE_LABELS !! i = Some genre ->
              predictions r !! i = Some (genre, default 0.0 (snd <$> (pair :: pairs) !! i)).
Proof.
  intros Hf.
  destruct (trained_predict_pairs f rand t pair pairs Hf) as (r & Hr & Hv & Hp).
  exists r. split; [exact Hr|]. split; [exact Hv|].
  intros i genre Hg. rewrite (Hp i genre Hg).
  change (map snd (pair :: pairs)) with (snd <$> (pair :: pairs)).
  rewrite list_lookup_fmap. reflexivity.
Qed.

Lemma X20_witness :
  exists r,
    predict_genres (ModelLoaded (fun _ => Ok (ListOfArrays1 [[0.4; 0.6]; [0.7; 0.3]])))
                   [] example_track = Ok r /\
    model_version r = "SVM-v2.0"%string /\
    forall i genre, GENRE_LABELS !! i = Some genre ->
      predictions r !! i = Some (genre, default 0.0 (snd <$> [(0.4, 0.6); (0.7, 0.3)] !! i)).
Proof.
  apply (X20_pairs_give_positive_class
           (fun _ => Ok (ListOfArrays1 [[0.4; 0.6]; [0.7; 0.3]]))
           [] example_track (0.4, 0.6) [(0.7, 0.3)]).
  reflexivity.
Defined.

(** ** The errors of [predict_genres] *)

Lemma demo_predict_error (t : TrackData) (e : exn) :
  demo_predict t = Raise e -> e = ZeroDivisionError /\ sum (values (base_probs t)) == 0.
Proof.
  intros H. destruct (Qeq_dec (sum (values (base_probs t))) 0) as [Hz|Hnz].
  - rewrite (demo_predict_raises t Hz) in H. injection H as <-. split; [reflexivity|exact Hz].
  - destruct (demo_predict_returns t Hnz) as (r & Hr & _). congruence.
Qed.

(** X21: the scorer's exceptions never reach the caller of
    [predict_genres]: the one error it can raise is the [ZeroDivisionError]
    of the demo path, and only when the trained path gave no answer and the
    ten raw scores of the request sum to 0. *)
Theorem X21_predict_genres_only_error (MODEL : model) (rand : list Q) (t : TrackData)
    (e : exn) :
  predict_genres MODEL rand t = Raise e ->
  e = ZeroDivisionError /\
  sum (values (base_probs t)) == 0 /\
  ~ is_Ok (trained_predict MODEL rand t).
Proof.
  intros H. destruct (predict_genres_cases MODEL rand t) as [[E Hok]|[E Hno]].
  - rewrite E in H. rewrite H in Hok. destruct Hok.
  - rewrite E in H. destruct (demo_predict_error t e H) as [He Hz]. tauto.
Qed.

Lemma X21_witness :
  ZeroDivisionError = ZeroDivisionError /\
  sum (values (base_probs zero_sum_track)) == 0 /\
  ~ is_Ok (trained_predict (ModelLoaded (fun _ => Raise (ScorerError "boom"))) []
                           zero_sum_track).
Proof.
  apply (X21_predict_genres_only_error
           (ModelLoaded (fun _ => Raise (ScorerError "boom"))) [] zero_sum_track).
  cbn [predict_genres try_except trained_predict call_predict_proba bind].
  apply demo_predict_raises. vm_compute. reflexivity.
Defined.

(** ** More on the batch endpoint *)

Lemma batch_loop_inv (MODEL : model) (tracks : list TrackData) :
  forall rand predictions total_confidence acc,
    batch_loop MODEL rand tracks predictions total_confidence = Ok acc ->
    exists rs, answered MODEL rand tracks rs.
Proof.
  induction tracks as [|t ts IH]; intros rand ps total acc H.
  - exists []. constructor.
  - cbn [batch_loop] in H.
    destruct (predict_genres MODEL (rand 0%nat) t) as [r|e] eqn:Er; [|discriminate H].
    cbn [bind] in H. destruct (IH _ _ _ _ H) as (rs & Hrs).
    exists (r :: rs). constructor; assumption.
Qed.

Lemma batch_loop_raise (MODEL : model) (tracks : list TrackData) :
  forall rand predictions total_confidence e,
    batch_loop MODEL rand tracks predictions total_confidence = Raise e ->
    exists i t, tracks !! i = Some t /\ predict_genres MODEL (rand i) t = Raise e.
Proof.
  induction tracks as [|t ts IH]; intros rand ps total e H; [discriminate H|].
  cbn [batch_loop] in H.
  destruct (predict_genres MODEL (rand 0%nat) t) as [r|e'] eqn:Er.
  - cbn [bind] in H. destruct (IH _ _ _ _ H) as (i & t' & Hi & Hp).
    exists (S i), t'. split; assumption.
  - cbn [bind] in H. injection H as <-. exists 0%nat, t. split; [reflexivity|exact Er].
Qed.

Lemma predict_genres_batch_answered (MODEL : model) rand tracks rs :
  answered MODEL rand tracks rs ->
  predict_genres_batch MODEL rand tracks =
    Ok {| batch_predictions := rs;
          total_tracks := length rs;
          average_confidence :=
            match rs with
            | [] => 0.0
            | _ => fold_left Qplus (map confidence rs) 0.0
                   / inject_Z (Z.of_nat (length rs))
            end |}.
Proof.
  intros H. unfold predict_genres_batch.
  rewrite (batch_loop_answered MODEL rand tracks rs H). reflexivity.
Qed.

(** X22: the batch endpoint returns exactly when [predict_genres] answers
    every track of the batch; otherwise it raises the error of a track, a
    [ZeroDivisionError], and returns no partial result. *)
Theorem X22_batch_returns_iff_every_track_answered (MODEL : model) (rand : nat -> list Q)
    (tracks : list TrackData) :
  (is_Ok (predict_genres_batch MODEL rand tracks) <->
   forall i t, tracks !! i = Some t -> is_Ok (predict_genres MODEL (rand i) t)) /\
  (forall e, predict_genres_batch MODEL rand tracks = Raise e ->
     e = ZeroDivisionError /\
     exists i t, tracks !! i = Some t /\ predict_genres MODEL (rand i) t = Raise e).
Proof.
  split; [split|].
  - unfold predict_genres_batch. intros H.
    destruct (batch_loop MODEL rand tracks [] 0.0) as [acc|e] eqn:E; [|destruct H].
    destruct (batch_loop_inv _ _ _ _ _ _ E) as (rs & Hrs).
    destruct (answered_lookup MODEL rand tracks rs Hrs) as [_ Hget].
    intros i t Hi. destruct (Hget i t Hi) as (r & _ & ->). exact I.
  - intros H. destruct (answered_exists MODEL tracks rand H) as (rs & Hrs).
    rewrite (predict_genres_batch_answered MODEL rand tracks rs Hrs). exact I.
  - unfold predict_genres_batch. intros e H.
    destruct (batch_loop MODEL rand tracks [] 0.0) as [acc|e'] eqn:E; [discriminate H|].
    cbn [bind] in H. injection H as <-.
    destruct (batch_loop_raise _ _ _ _ _ _ E) as (i & t & Hi & Hp).
    split; [|exists i, t; split; assumption].
    destruct (predict_genres_cases MODEL (rand i) t) as [[Ec Hok]|[Ec _]].
    + rewrite Ec in Hp. rewrite Hp in Hok. destruct Hok.
    + rewrite Ec in Hp. apply demo_predict_error in Hp. tauto.
Qed.

Lemma fold_left_Qplus_constant (c : Q) (rs : list PredictionResponse) :
  Forall (fun r => confidence r == c) rs ->
  fold_left Qplus (map confidence rs) 0.0 == inject_Z (Z.of_nat (length rs)) * c.
Proof.
  intros H. rewrite fold_left_Qplus_acc.
  assert (fold_left Qplus (map confidence rs) 0 == inject_Z (Z.of_nat (length rs)) * c) as ->.
  { induction H as [|r rs Hr _ IH].
    - cbn [map fold_left length]. change (inject_Z (Z.of_nat 0)) with 0. lra.
    - change (fold_left Qplus (map confidence (r :: rs)) 0)
        with (sum (confidence r :: map confidence rs)).
      rewrite sum_cons. unfold sum. rewrite IH, Hr. cbn [length].
      rewrite inject_Z_of_nat_S. lra. }
  lra.
Qed.

Lemma answered_not_loaded_confidence (MODEL : model) rand tracks rs :
  not_loaded MODEL -> answered MODEL rand tracks rs ->
  Forall (fun r => confidence r == 0.08) rs.
Proof.
  intros Hm. induction 1 as [rand|rand t ts r rs Hr _ IH]; constructor; [|exact IH].
  rewrite (predict_genres_not_loaded MODEL _ t Hm) in Hr.
  eapply demo_predict_confidence, Hr.
Qed.

(** X23: while no model is loaded, a batch that is not empty and whose
    tracks are in the declared ranges is answered with the average
    confidence 0.08, whatever the tracks are. *)
Theorem X23_batch_average_without_model (MODEL : model) (rand : nat -> list Q)
    (tracks : list TrackData) :
  not_loaded MODEL -> tracks <> [] -> Forall schema_valid tracks ->
  exists resp, predict_genres_batch MODEL rand tracks = Ok resp /\
               total_tracks resp = length tracks /\
               average_confidence resp == 0.08.
Proof.
  intros Hm Hne Hvalid.
  destruct (answered_exists MODEL tracks rand) as (rs & Hrs).
  { intros i t Hi. apply predict_genres_returns.
    rewrite List.Forall_forall in Hvalid. apply Hvalid.
    apply list_elem_of_In, list_elem_of_lookup. exists i. exact Hi. }
  destruct (answered_lookup MODEL rand tracks rs Hrs) as [Hlen _].
  rewrite (predict_genres_batch_answered MODEL rand tracks rs Hrs).
  eexists. split; [reflexivity|]. cbn [total_tracks average_confidence].
  split; [exact Hlen|].
  pose proof (answered_not_loaded_confidence MODEL rand tracks rs Hm Hrs) as Hc.
  destruct rs as [|r rs]; [destruct tracks; [congruence|discriminate Hlen]|].
  rewrite (fold_left_Qplus_constant 0.08 _ Hc). cbn [length].
  pose proof (inject_Z_of_nat_nonneg (length rs)) as Hn.
  rewrite inject_Z_of_nat_S. field. lra.
Qed.

Lemma X23_witness :
  exists resp,
    predict_genres_batch MODEL_initial (fun _ => []) [example_track; second_track] = Ok resp /\
    total_tracks resp = length [example_track; second_track] /\
    average_confidence resp == 0.08.
Proof.
  apply (X23_batch_average_without_model MODEL_initial (fun _ => [])
           [example_track; second_track]).
  - exact I.
  - discriminate.
  - repeat constructor; vm_compute; congruence.
Defined.

Lemma answered_app (MODEL : model) rand ts1 rs1 :
  answered MODEL rand ts1 rs1 ->
  forall ts2 rs2,
    answered MODEL (fun i => rand (length ts1 + i)%nat) ts2 rs2 ->
    answered MODEL rand (ts1 ++ ts2) (rs1 ++ rs2).
Proof.
  induction 1 as [rand|rand t ts r rs Hr _ IH]; intros ts2 rs2 H2.
  - exact H2.
  - cbn [app]. constructor; [exact Hr|]. apply IH. exact H2.
Qed.

Lemma predict_genres_batch_inv (MODEL : model) rand tracks resp :
  predict_genres_batch MODEL rand tracks = Ok resp ->
  answered MODEL rand tracks (batch_predictions resp) /\
  total_tracks resp = length (batch_predictions resp).
Proof.
  intros H.
  assert (exists rs, answered MODEL rand tracks rs) as (rs & Hrs).
  { unfold predict_genres_batch in H.
    destruct (batch_loop MODEL rand tracks [] 0.0) as [acc|e] eqn:E; [|discriminate H].
    eapply batch_loop_inv, E. }
  rewrite (predict_genres_batch_answered MODEL rand tracks rs Hrs) in H.
  injection H as <-. split; [exact Hrs | reflexivity].
Qed.

(** X24: batches compose: when a batch and a second batch (taking the draws
    that follow those of the first) are both answered, the batch of the
    tracks of the first followed by those of the second is answered with
    the predictions of the first followed by those of the second, and the
    counts add up. *)
Theorem X24_batch_of_concatenation (MODEL : model) (rand : nat -> list Q)
    (tracks1 tracks2 : list TrackData) (resp1 resp2 : BatchPredictionResponse) :
  predict_genres_batch MODEL rand tracks1 = Ok resp1 ->
  predict_genres_batch MODEL (fun i => rand (length tracks1 + i)%nat) tracks2 = Ok resp2 ->
  exists resp,
    predict_genres_batch MODEL rand (tracks1 ++ tracks2) = Ok resp /\
    batch_predictions resp = batch_predictions resp1 ++ batch_predictions resp2 /\
    total_tracks resp = (total_tracks resp1 + total_tracks resp2)%nat.
Proof.
  intros H1 H2.
  apply predict_genres_batch_inv in H1 as [A1 L1].
  apply predict_genres_batch_inv in H2 as [A2 L2].
  pose proof (answered_app MODEL rand _ _ A1 _ _ A2) as A.
  rewrite (predict_genres_batch_answered MODEL rand _ _ A).
  eexists. split; [reflexivity|]. cbn [batch_predictions total_tracks].
  split; [reflexivity|]. rewrite length_app, L1, L2. reflexivity.
Qed.

Lemma X24_witness :
  exists resp,
    predict_genres_batch MODEL_initial (fun _ => []) ([example_track] ++ [second_track])
      = Ok resp /\
    (exists resp1 resp2,
       predict_genres_batch MODEL_initial (fun _ => []) [example_track] = Ok resp1 /\
       predict_genres_batch MODEL_initial (fun _ => []) [second_track] = Ok resp2 /\
       batch_predictions resp = batch_predictions resp1 ++ batch_predictions resp2 /\
       total_tracks resp = (total_tracks resp1 + total_tracks resp2)%nat).
Proof.
  destruct (X24_batch_of_concatenation MODEL_initial (fun _ => [])
              [example_track] [second_track] _ _ eq_refl eq_refl) as (resp & H & Hp & Ht).
  exists resp. split; [exact H|]. eexists. eexists.
  split; [reflexivity|]. split; [reflexivity|]. split; assumption.
Defined.

(** ** The confidence the endpoints report *)

Lemma sum_between (lo hi : Q) (xs : list Q) :
  Forall (fun x => lo <= x /\ x <= hi) xs ->
  inject_Z (Z.of_nat (length xs)) * lo <= sum xs /\
  sum xs <= inject_Z (Z.of_nat (length xs)) * hi.
Proof.
  induction 1 as [|x xs [Hlo Hhi] _ [IHlo IHhi]].
  - rewrite sum_nil. change (inject_Z (Z.of_nat (length (@nil Q)))) with 0. lra.
  - rewrite sum_cons. cbn [length]. rewrite inject_Z_of_nat_S. lra.
Qed.

(** X25: the confidence of a response of [predict_genres] lies between the
    smallest and the largest of its ten probabilities: probabilities in
    [lo, hi] give a confidence in [lo, hi]. *)
Theorem X25_confidence_within_probabilities (MODEL : model) (rand : list Q)
    (t : TrackData) (r : PredictionResponse) (lo hi : Q) :
  predict_genres MODEL rand t = Ok r ->
  Forall (fun p => lo <= p /\ p <= hi) (values (predictions r)) ->
  lo <= confidence r /\ confidence r <= hi.
Proof.
  intros H Hb. destruct (predict_genres_fields MODEL rand t r H) as (_ & -> & Hk).
  unfold np_mean. destruct (sum_between lo hi _ Hb) as [Hlo Hhi].
  assert (length (values (predictions r)) = 10%nat) as Hlen.
  { rewrite length_values. unfold keys in Hk.
    apply (f_equal (@length string)) in Hk. rewrite length_map in Hk. exact Hk. }
  rewrite Hlen in *. change (inject_Z (Z.of_nat 10)) with 10 in *.
  split; [apply Qle_shift_div_l; lra | apply Qle_shift_div_r; lra].
Qed.

Lemma X25_witness :
  exists r, predict_genres (rows_model peaked_row) [] example_track = Ok r /\
            0 <= confidence r /\ confidence r <= 1.
Proof.
  eexists. split; [reflexivity|].
  apply (X25_confidence_within_probabilities (rows_model peaked_row) [] example_track _ 0 1).
  - reflexivity.
  - repeat constructor; vm_compute; congruence.
Defined.

(** ** The features the heuristic does not read *)

(** X26: the heuristic reads seven of the ten features: the loudness, the
    liveness and the tempo of a request (and its album) have no influence on
    what [demo_predict] answers, and the entries of the feature dictionary
    under these three names none on [generate_mock_predictions], although
    [validate_audio_features] checks them. *)
Theorem X26_heuristic_ignores_three_features :
  (forall (t : TrackData) (l v m : Q),
     demo_predict (with_unread_features t l v m) = demo_predict t) /\
  (forall (features : gmap string Q) (k : string) (v : Q),
     In k ["loudness"; "liveness"; "tempo"]%string ->
     generate_mock_predictions (<[k:=v]> features) = generate_mock_predictions features) /\
  (forall (features : gmap string Q) (k : string),
     In k ["loudness"; "liveness"; "tempo"]%string ->
     exists v, validate_audio_features (<[k:=v]> features) = false).
Proof.
  split; [|split].
  - intros t l v m. unfold demo_predict, base_probs, with_unread_features.
    cbn [track_name artists danceability energy speechiness acousticness
         instrumentalness valence popularity].
    reflexivity.
  - intros features k v Hk.
    assert (forall k' dflt,
              In k' ["danceability"; "energy"; "speechiness"; "acousticness";
                     "instrumentalness"; "valence"; "popularity"]%string ->
              get (<[k:=v]> features) k' dflt = get features k' dflt) as Hget.
    { intros k' dflt Hin. apply get_insert_ne. intros ->.
      cbn [In] in Hk, Hin.
      repeat (destruct Hk as [Hk|Hk]; [subst k'|]); try contradiction;
        repeat (destruct Hin as [Hin|Hin]; [discriminate Hin|]); contradiction. }
    unfold generate_mock_predictions, mock_base_probs.
    rewrite !Hget by (cbn [In]; tauto). reflexivity.
  - intros features k Hk. exists 1000.
    rewrite validate_audio_features_insert.
    cbn [In] in Hk.
    repeat (destruct Hk as [<-|Hk]; [reflexivity|]). contradiction.
Qed.

(** ** The batch endpoint on tracks that are answered *)

(** X27: when every track of the batch is answered by [predict_genres], the
    batch endpoint returns the responses of the tracks in the order of the
    tracks, counts them, and reports the arithmetic mean of their
    confidences; an empty batch gets no prediction, a count of 0 and the
    average 0.0. *)
Theorem X27_batch_order_and_mean :
  (forall (MODEL : model) (rand : nat -> list Q),
      predict_genres_batch MODEL rand [] =
        Ok {| batch_predictions := []; total_tracks := 0; average_confidence := 0.0 |}) /\
  (forall (MODEL : model) (rand : nat -> list Q) (tracks : list TrackData),
      (forall i t, tracks !! i = Some t -> is_Ok (predict_genres MODEL (rand i) t)) ->
      exists resp,
        predict_genres_batch MODEL rand tracks = Ok resp /\
        length (batch_predictions resp) = length tracks /\
        (forall i t, tracks !! i = Some t ->
           exists r, batch_predictions resp !! i = Some r /\
                     predict_genres MODEL (rand i) t = Ok r /\
                     track r = track_name t) /\
        total_tracks resp = length tracks /\
        (tracks <> [] ->
           average_confidence resp ==
             sum (map confidence (batch_predictions resp))
             / inject_Z (Z.of_nat (length tracks)))).
Proof.
  split; [reflexivity|].
  intros MODEL rand tracks H.
  destruct (answered_exists MODEL tracks rand H) as (rs & Hrs).
  destruct (answered_lookup MODEL rand tracks rs Hrs) as [Hlen Hget].
  unfold predict_genres_batch.
  rewrite (batch_loop_answered MODEL rand tracks rs Hrs). cbn [bind fst snd app].
  eexists. split; [reflexivity|]. cbn [batch_predictions total_tracks average_confidence].
  split; [exact Hlen|]. split; [|split; [exact Hlen|]].
  - intros i t Hi. destruct (Hget i t Hi) as (r & Hr & Hp).
    exists r. split; [exact Hr|]. split; [exact Hp|].
    eapply predict_genres_track, Hp.
  - intros Hne. destruct rs as [|r rs].
    + destruct tracks; [congruence|discriminate].
    + rewrite <- Hlen. unfold sum. rewrite (fold_left_Qplus_acc _ 0.0).
      apply Qmult_comp; [lra | reflexivity].
Qed.

Lemma X27_witness :
  exists resp,
    predict_genres_batch MODEL_initial (fun _ => []) [example_track; second_track] = Ok resp /\
    length (batch_predictions resp) = 2%nat /\
    (forall i t, [example_track; second_track] !! i = Some t ->
       exists r, batch_predictions resp !! i = Some r /\
                 predict_genres MODEL_initial [] t = Ok r /\
                 track r = track_name t) /\
    total_tracks resp = 2%nat /\
    ([example_track; second_track] <> [] ->
       average_confidence resp ==
         sum (map confidence (batch_predictions resp)) / inject_Z (Z.of_nat 2)).
Proof.
  apply (proj2 X27_batch_order_and_mean MODEL_initial (fun _ => [])
           [example_track; second_track]).
  intros i t Hi. apply predict_genres_returns.
  destruct i as [|[|i]]; cbn in Hi; try discriminate; injection Hi as <-.
  - exact example_track_valid.
  - constructor; split; vm_compute; congruence.
Defined.
